(** * Personal notes manager: the fallback-aware notes service

    A shallow embedding of [app/services.py], [app/models.py] and
    [app/routes/notes.py] of the notes backend, and the properties of the
    storage-fallback service layer and of the pagination helper.

    Conventions of the embedding:
    - Python [int] is [Z]; [str] is [string] (code points below 256);
      [None]-able arguments are [option];
    - an exception is a value of [exn] carried by [result];
    - the insertion-ordered [dict] of the in-memory store is an association
      list in insertion order;
    - the SQL table behind the SQLAlchemy session is a list of rows, and what
      the engine does during one call (answer or raise) is an input of the
      call, the record [Env]. *)

From Stdlib Require Import ZArith List String Ascii Bool Lia Sorting.Sorted Sorting.Permutation.
From Equations Require Import Equations.
From Equations.Prop Require Import Logic.
Import ListNotations.

Open Scope string_scope.
Open Scope Z_scope.

(** ** Exceptions and results *)

Inductive exn : Type :=
| SQLAlchemyError     (* the StorageError of the durable backend *)
| ZeroDivisionError.

Inductive result (A : Type) : Type :=
| Ok (a : A)
| Raise (e : exn).
Arguments Ok {A} a.
Arguments Raise {A} e.

Definition bind {A B : Type} (r : result A) (k : A -> result B) : result B :=
  match r with
  | Ok a => k a
  | Raise e => Raise e
  end.

Notation "x <- r ;; k" := (bind r (fun x => k))
  (at level 61, r at next level, right associativity).

(** ** Pagination helper ([routes/notes.py]) *)

Module Pagination.

(** [ceil(a / b)] of Python: [/] raises [ZeroDivisionError] on a zero
    divisor.  The quotient goes through a binary64 float in Python; it is
    taken exactly here, which agrees with Python as long as both operands are
    below [2^53] (the operands are a row count and a page size). *)
Definition ceil_div (a b : Z) : result Z :=
  if b =? 0 then Raise ZeroDivisionError else Ok (- ((- a) / b)).

Record Meta : Type := mkMeta {
  total : Z;
  total_pages : Z;
  first_page : Z;
  last_page : Z;
  page : Z;
  previous_page : option Z;
  next_page : option Z
}.

(** [pagination_meta(total, page, page_size)].  The conditional expression
    [X if page_size else 1] evaluates [X] only when [page_size] is non-zero. *)
Definition pagination_meta (total page page_size : Z) : result Meta :=
  tp <- (if negb (page_size =? 0)
         then (q <- ceil_div total page_size ;; Ok (Z.max q 1))
         else Ok 1) ;;
  let prev_page := if 1 <? page then Some (page - 1) else None in
  let next_page := if page <? tp then Some (page + 1) else None in
  Ok {| total := total;
        total_pages := tp;
        first_page := 1;
        last_page := tp;
        page := page;
        previous_page := prev_page;
        next_page := next_page |}.

(** The mathematical ceiling of [a / b] for a positive [b]: the least [q]
    with [a <= q * b]. *)
Definition is_ceil (a b q : Z) : Prop :=
  a <= q * b /\ (q - 1) * b < a.

End Pagination.

(** ** Strings: [str.strip()] *)

Module Str.

(** [str.isspace] on the code points below 256: TAB..CR, FS..US, SPACE,
    NEL (0x85) and NBSP (0xA0). *)
Definition isspace (c : ascii) : bool :=
  let n := N_of_ascii c in
  ((9 <=? n) && (n <=? 13) || (28 <=? n) && (n <=? 32) || (n =? 133) || (n =? 160))%N.

Fixpoint lstrip (s : string) : string :=
  match s with
  | EmptyString => EmptyString
  | String c s' => if isspace c then lstrip s' else s
  end.

Fixpoint rstrip (s : string) : string :=
  match s with
  | EmptyString => EmptyString
  | String c s' =>
      match rstrip s' with
      | EmptyString => if isspace c then EmptyString else String c EmptyString
      | r => String c r
      end
  end.

(** [s.strip()]: whitespace removed at both ends. *)
Definition strip (s : string) : string := rstrip (lstrip s).

Fixpoint all_space (s : string) : bool :=
  match s with
  | EmptyString => true
  | String c s' => isspace c && all_space s'
  end.

(** Empty, or made of whitespace only. *)
Definition blank (s : string) : Prop := all_space s = true.

End Str.

(** ** The Note entity ([models.py]) *)

(** An instant of the UTC clock.  The durable rows hold [datetime] values and
    the in-memory records their [isoformat()] rendering; both are the instant
    here. *)
Definition Time : Type := Z.

(** A row of table [notes], and equally the record
    [{"id", "title", "content", "created_at", "updated_at"}] that the
    in-memory store keeps and that [to_dict] yields. *)
Module Models.

Record Note : Type := mkNote {
  id : Z;
  title : string;
  content : string;
  created_at : Time;
  updated_at : Time
}.

End Models.

(** [content or ""] *)
Definition or_empty (content : option string) : string :=
  match content with
  | Some c => c
  | None => ""%string
  end.

(** ** The insertion-ordered dict of the in-memory store *)

Module Dict.

Definition t : Type := list (Z * Models.Note).

(** [d.get(k)] *)
Fixpoint get (d : t) (k : Z) : option Models.Note :=
  match d with
  | [] => None
  | (k', v) :: d' => if k' =? k then Some v else get d' k
  end.

(** [d[k] = v]: an existing key keeps its position, a new key goes last. *)
Fixpoint set (d : t) (k : Z) (v : Models.Note) : t :=
  match d with
  | [] => [(k, v)]
  | (k', v') :: d' => if k' =? k then (k, v) :: d' else (k', v') :: set d' k v
  end.

(** The dict after [d.pop(k, None)].  A dict binds a key once; on a list the
    removal drops every binding of [k]. *)
Definition remove (d : t) (k : Z) : t :=
  filter (fun kv => negb (fst kv =? k)) d.

(** [d.pop(k, None)]: the value popped, and the dict left. *)
Definition pop (d : t) (k : Z) : option Models.Note * t :=
  (get d k, remove d k).

(** [list(d.values())]: the values in insertion order. *)
Definition values (d : t) : list Models.Note := map snd d.

End Dict.

(** [l[start:end]] of Python for any two integers: a negative index counts
    from the end, and both indices are clamped to the list. *)
Definition slice {A : Type} (l : list A) (start end_ : Z) : list A :=
  let len := Z.of_nat (List.length l) in
  let norm i := if i <? 0 then Z.max 0 (i + len) else Z.min i len in
  let s := norm start in
  let e := norm end_ in
  firstn (Z.to_nat (e - s)) (skipn (Z.to_nat s) l).

(** ** The durable backend: table [notes] behind the SQLAlchemy session *)

(** The handle [db] is the Flask-SQLAlchemy object of [app/extensions.py];
    what the service uses of it is [db.session] ([get], [add], [delete],
    [commit], [rollback]) and [Note.query].  The session is modelled by its
    effect on the committed rows of the table, as SQLAlchemy documents it for
    the SQLite engine the application configures. *)

(** What surrounds one call of the service: the clock (read once per call),
    and whether the database engine answers the reads and the commit issued
    during the call ([false]: the statement raises [SQLAlchemyError]). *)
Record Env : Type := mkEnv {
  now : Time;
  read_ok : bool;
  commit_ok : bool
}.

Module Db.

(** The committed rows of table [notes], and the number of requests the
    session has sent to the engine so far (a counter kept for the statements
    about which backend is asked; the code has no such field). *)
Record t : Type := mk {
  rows : list Models.Note;
  requests : nat
}.

Definition asked (db : t) : t :=
  {| rows := rows db; requests := S (requests db) |}.

Definition find_row (rs : list Models.Note) (k : Z) : option Models.Note :=
  find (fun n => Models.id n =? k) rs.

(** [db.session.get(Note, k)] *)
Definition session_get (db : t) (e : Env) (k : Z) : t * result (option Models.Note) :=
  (asked db, if read_ok e then Ok (find_row (rows db) k) else Raise SQLAlchemyError).

(** [db.session.commit()] of a unit of work that turns the table into
    [rows']; a commit that raises leaves the table as it was (the handler's
    [db.session.rollback()] discards the pending changes). *)
Definition session_commit (db : t) (e : Env) (rows' : list Models.Note) : t * result unit :=
  if commit_ok e
  then ({| rows := rows'; requests := S (requests db) |}, Ok tt)
  else (asked db, Raise SQLAlchemyError).

(** The integer primary key SQLite gives an inserted row: one more than the
    largest key in the table (the default [DATABASE_URL] is a SQLite file). *)
Definition next_id (rs : list Models.Note) : Z :=
  1 + fold_right (fun n m => Z.max (Models.id n) m) 0 rs.

(** The row an INSERT of [Note(title=..., content=...)] writes: both
    timestamp columns take their [default]. *)
Definition inserted (rs : list Models.Note) (e : Env) (title content : string) : Models.Note :=
  Models.mkNote (next_id rs) title content (now e) (now e).

(** The row after the attribute assignments of [update_note] are flushed.
    Column [updated_at] has [onupdate=now]: it is rewritten by the UPDATE
    statement, and the session emits an UPDATE only for an object with a
    changed column. *)
Definition updated (n : Models.Note) (e : Env) (title content : option string) : Models.Note :=
  let title' := match title with Some x => x | None => Models.title n end in
  let content' := match content with Some x => x | None => Models.content n end in
  let changed := negb (String.eqb title' (Models.title n))
                 || negb (String.eqb content' (Models.content n)) in
  Models.mkNote (Models.id n) title' content' (Models.created_at n)
                (if changed then now e else Models.updated_at n).

Definition replace_row (rs : list Models.Note) (n : Models.Note) : list Models.Note :=
  map (fun r => if Models.id r =? Models.id n then n else r) rs.

Definition delete_row (rs : list Models.Note) (k : Z) : list Models.Note :=
  filter (fun r => negb (Models.id r =? k)) rs.

(** [ORDER BY id DESC] *)
Fixpoint insert_desc (n : Models.Note) (l : list Models.Note) : list Models.Note :=
  match l with
  | [] => [n]
  | m :: l' => if Models.id m <=? Models.id n then n :: l else m :: insert_desc n l'
  end.

Definition order_by_id_desc (rs : list Models.Note) : list Models.Note :=
  fold_right insert_desc [] rs.

(** [OFFSET k]: a negative offset skips nothing. *)
Definition offset {A : Type} (k : Z) (l : list A) : list A := skipn (Z.to_nat k) l.

(** [LIMIT k]: a negative limit is no limit (SQLite). *)
Definition limit {A : Type} (k : Z) (l : list A) : list A :=
  if k <? 0 then l else firstn (Z.to_nat k) l.

(** [query.count()] for [query = Note.query.order_by(Note.id.desc())] *)
Definition query_count (db : t) (e : Env) : t * result Z :=
  (asked db, if read_ok e then Ok (Z.of_nat (List.length (rows db))) else Raise SQLAlchemyError).

(** [query.offset(off).limit(lim).all()] *)
Definition query_page (db : t) (e : Env) (off lim : Z) : t * result (list Models.Note) :=
  (asked db,
   if read_ok e then Ok (limit lim (offset off (order_by_id_desc (rows db))))
   else Raise SQLAlchemyError).

End Db.

(** ** The notes service ([services.py]) *)

Module Services.

(** The fields of a [NotesService] instance. *)
Record NotesService : Type := mkService {
  _fallback_enabled : bool;
  _mem_store : Dict.t;
  _mem_next_id : Z
}.

(** [NotesService.__init__] *)
Definition __init__ : NotesService :=
  {| _fallback_enabled := false; _mem_store := []; _mem_next_id := 1 |}.

Definition _should_use_fallback (self : NotesService) : bool :=
  _fallback_enabled self.

(** [enable_fallback]: sets the flag (and logs a warning, which is not kept). *)
Definition enable_fallback (self : NotesService) : NotesService :=
  {| _fallback_enabled := true;
     _mem_store := _mem_store self;
     _mem_next_id := _mem_next_id self |}.

(** A service instance together with the module-level [db] it talks to. *)
Record World : Type := mkWorld {
  svc : NotesService;
  db : Db.t
}.

Definition with_db (w : World) (d : Db.t) : World := {| svc := svc w; db := d |}.
Definition with_svc (w : World) (s : NotesService) : World := {| svc := s; db := db w |}.

(** How many times an operation can still fall back: the measure under which
    the re-invocation in the [except] handlers terminates. *)
Definition fallbacks_left (w : World) : nat :=
  if _should_use_fallback (svc w) then 0%nat else 1%nat.

(** *** The in-memory branches *)

(** Lines 29-39: the branch of [create_note] under the fallback flag. *)
Definition mem_create (self : NotesService) (e : Env) (title : string)
    (content : option string) : NotesService * Models.Note :=
  let nid := _mem_next_id self in
  let data := Models.mkNote nid title (or_empty content) (now e) (now e) in
  ({| _fallback_enabled := _fallback_enabled self;
      _mem_store := Dict.set (_mem_store self) nid data;
      _mem_next_id := _mem_next_id self + 1 |},
   data).

(** Lines 65-77: the branch of [update_note] under the fallback flag. *)
Definition mem_update (self : NotesService) (e : Env) (note_id : Z)
    (title content : option string) : NotesService * option Models.Note :=
  match Dict.get (_mem_store self) note_id with
  | None => (self, None)
  | Some data =>
      let data1 :=
        match title with
        | Some x => Models.mkNote (Models.id data) x (Models.content data)
                      (Models.created_at data) (Models.updated_at data)
        | None => data
        end in
      let data2 :=
        match content with
        | Some x => Models.mkNote (Models.id data1) (Models.title data1) x
                      (Models.created_at data1) (Models.updated_at data1)
        | None => data1
        end in
      let data3 :=
        Models.mkNote (Models.id data2) (Models.title data2) (Models.content data2)
          (Models.created_at data2) (now e) in
      ({| _fallback_enabled := _fallback_enabled self;
          _mem_store := Dict.set (_mem_store self) note_id data3;
          _mem_next_id := _mem_next_id self |},
       Some data3)
  end.

(** Line 96: the branch of [delete_note] under the fallback flag. *)
Definition mem_delete (self : NotesService) (note_id : Z) : NotesService * bool :=
  let (popped, store') := Dict.pop (_mem_store self) note_id in
  ({| _fallback_enabled := _fallback_enabled self;
      _mem_store := store';
      _mem_next_id := _mem_next_id self |},
   match popped with Some _ => true | None => false end).

(** Lines 113-121: the branch of [list_notes] under the fallback flag. *)
Definition mem_list (self : NotesService) (page page_size : Z) : list Models.Note * Z :=
  let items_all := Dict.values (_mem_store self) in
  let total := Z.of_nat (List.length items_all) in
  let start := (page - 1) * page_size in
  let end_ := start + page_size in
  (slice items_all start end_, total).

(** *** The [try] blocks on the durable backend *)

(** Lines 41-44. *)
Definition try_create (d : Db.t) (e : Env) (title : string) (content : option string)
  : Db.t * result Models.Note :=
  let note := Db.inserted (Db.rows d) e title (or_empty content) in
  let (d1, committed) := Db.session_commit d e (Db.rows d ++ [note]) in
  (d1, _ <- committed ;; Ok note).

(** Lines 79-87. *)
Definition try_update (d : Db.t) (e : Env) (note_id : Z) (title content : option string)
  : Db.t * result (option Models.Note) :=
  let (d1, got) := Db.session_get d e note_id in
  match got with
  | Raise ex => (d1, Raise ex)
  | Ok None => (d1, Ok None)
  | Ok (Some note) =>
      let note' := Db.updated note e title content in
      let (d2, committed) := Db.session_commit d1 e (Db.replace_row (Db.rows d1) note') in
      (d2, _ <- committed ;; Ok (Some note'))
  end.

(** Lines 98-103. *)
Definition try_delete (d : Db.t) (e : Env) (note_id : Z) : Db.t * result bool :=
  let (d1, got) := Db.session_get d e note_id in
  match got with
  | Raise ex => (d1, Raise ex)
  | Ok None => (d1, Ok false)
  | Ok (Some note) =>
      let (d2, committed) :=
        Db.session_commit d1 e (Db.delete_row (Db.rows d1) (Models.id note)) in
      (d2, _ <- committed ;; Ok true)
  end.

(** *** The operations *)

(** The three mutating operations share one shape: the in-memory branch under
    the flag; otherwise the [try] block, and [except SQLAlchemyError] sets
    the flag and calls the operation again with the same arguments. *)

Equations? create_note (w : World) (e : Env) (title : string) (content : option string)
  : World * result Models.Note by wf (fallbacks_left w) lt :=
create_note w e title content with inspect (_should_use_fallback (svc w)) := {
  | exist _ true _ =>
      let (self', note) := mem_create (svc w) e title content in
      (with_svc w self', Ok note)
  | exist _ false Hdurable with try_create (db w) e title content := {
      | (d, Raise SQLAlchemyError) =>
          create_note {| svc := enable_fallback (svc w); db := d |} e title content
      | (d, r) => (with_db w d, r) } }.
Proof.
  unfold fallbacks_left. cbn in *. rewrite Hdurable. lia.
Qed.

Equations? update_note (w : World) (e : Env) (note_id : Z) (title content : option string)
  : World * result (option Models.Note) by wf (fallbacks_left w) lt :=
update_note w e note_id title content with inspect (_should_use_fallback (svc w)) := {
  | exist _ true _ =>
      let (self', r) := mem_update (svc w) e note_id title content in
      (with_svc w self', Ok r)
  | exist _ false Hdurable with try_update (db w) e note_id title content := {
      | (d, Raise SQLAlchemyError) =>
          update_note {| svc := enable_fallback (svc w); db := d |} e note_id title content
      | (d, r) => (with_db w d, r) } }.
Proof.
  unfold fallbacks_left. cbn in *. rewrite Hdurable. lia.
Qed.

Equations? delete_note (w : World) (e : Env) (note_id : Z)
  : World * result bool by wf (fallbacks_left w) lt :=
delete_note w e note_id with inspect (_should_use_fallback (svc w)) := {
  | exist _ true _ =>
      let (self', r) := mem_delete (svc w) note_id in
      (with_svc w self', Ok r)
  | exist _ false Hdurable with try_delete (db w) e note_id := {
      | (d, Raise SQLAlchemyError) =>
          delete_note {| svc := enable_fallback (svc w); db := d |} e note_id
      | (d, r) => (with_db w d, r) } }.
Proof.
  unfold fallbacks_left. cbn in *. rewrite Hdurable. lia.
Qed.

(** [get_note]: no [try] around the read. *)
Definition get_note (w : World) (e : Env) (note_id : Z)
  : World * result (option Models.Note) :=
  if _should_use_fallback (svc w)
  then (w, Ok (Dict.get (_mem_store (svc w)) note_id))
  else let (d, got) := Db.session_get (db w) e note_id in (with_db w d, got).

(** [list_notes]: no [try] around the two queries. *)
Definition list_notes (w : World) (e : Env) (page page_size : Z)
  : World * result (list Models.Note * Z) :=
  if _should_use_fallback (svc w)
  then (w, Ok (mem_list (svc w) page page_size))
  else
    let (d1, counted) := Db.query_count (db w) e in
    match counted with
    | Raise ex => (with_db w d1, Raise ex)
    | Ok total =>
        let (d2, fetched) := Db.query_page d1 e ((page - 1) * page_size) page_size in
        (with_db w d2, items <- fetched ;; Ok (items, total))
    end.

(** *** The singleton accessor *)

(** A [NotesService] object: its identity and its fields. *)
Record Instance : Type := mkInstance {
  oid : nat;
  fields : NotesService
}.

(** The module globals: [_notes_service], and the number of [NotesService]
    objects constructed so far (the identity of the next one). *)
Record Globals : Type := mkGlobals {
  _notes_service : option Instance;
  constructed : nat
}.

(** The module as loaded: [_notes_service = None]. *)
Definition loaded : Globals := {| _notes_service := None; constructed := 0 |}.

Definition get_notes_service (g : Globals) : Globals * Instance :=
  match _notes_service g with
  | None =>
      let inst := {| oid := constructed g; fields := __init__ |} in
      ({| _notes_service := Some inst; constructed := S (constructed g) |}, inst)
  | Some inst => (g, inst)
  end.

End Services.

(** ** The HTTP handlers ([routes/notes.py]) *)

Module Routes.

Import Services.

(** The process: the globals of [services.py] and the database. *)
Record App : Type := mkApp {
  globals : Globals;
  database : Db.t
}.

(** A request body as the handler receives it from the schema: a key is
    absent ([None]) or present with its value, which is [null] ([Some None])
    where the schema allows it. *)
Record Body : Type := mkBody {
  body_title : option (option string);
  body_content : option (option string)
}.

(** [json_body.get(key)] *)
Definition body_get (field : option (option string)) : option string :=
  match field with
  | Some v => v
  | None => None
  end.

(** [not json_body] *)
Definition body_empty (b : Body) : bool :=
  match body_title b, body_content b with
  | None, None => true
  | _, _ => false
  end.

Inductive Response : Type :=
| NoteJson (status : Z) (note : Models.Note)
| PageJson (data : list Models.Note) (pagination : Pagination.Meta)
| NoContent
| Aborted (status : Z) (message : string)
| Uncaught (ex : exn).

(** [get_notes_service().op(...)]: the operation runs on the singleton, whose
    fields it mutates in place. *)
Definition on_service {A : Type} (a : App) (op : World -> World * result A)
  : App * result A :=
  let (g, inst) := get_notes_service (globals a) in
  let (w, r) := op {| svc := fields inst; db := database a |} in
  ({| globals := {| _notes_service := Some {| oid := oid inst; fields := svc w |};
                    constructed := constructed g |};
      database := db w |},
   r).

(** The service and the database the next handler works on. *)
Definition world_of (a : App) : World :=
  {| svc := fields (snd (get_notes_service (globals a))); db := database a |}.

(** [NotesList.get] *)
Definition NotesList_get (a : App) (e : Env) (page page_size : Z) : App * Response :=
  let (a', r) := on_service a (fun w => list_notes w e page page_size) in
  match r with
  | Raise ex => (a', Uncaught ex)
  | Ok (items, total) =>
      match Pagination.pagination_meta total page page_size with
      | Raise ex => (a', Uncaught ex)
      | Ok meta => (a', PageJson items meta)
      end
  end.

(** [NotesList.post] *)
Definition NotesList_post (a : App) (e : Env) (json_body : Body) : App * Response :=
  match body_get (body_title json_body) with
  | None => (a, Aborted 400 "title is required and must be non-empty")
  | Some title =>
      if String.eqb (Str.strip title) ""
      then (a, Aborted 400 "title is required and must be non-empty")
      else
        let content := body_get (body_content json_body) in
        let (a', r) := on_service a (fun w => create_note w e (Str.strip title) content) in
        match r with
        | Raise ex => (a', Uncaught ex)
        | Ok note => (a', NoteJson 201 note)
        end
  end.

(** [NoteDetail.get] *)
Definition NoteDetail_get (a : App) (e : Env) (note_id : Z) : App * Response :=
  let (a', r) := on_service a (fun w => get_note w e note_id) in
  match r with
  | Raise ex => (a', Uncaught ex)
  | Ok None => (a', Aborted 404 "Note not found")
  | Ok (Some note) => (a', NoteJson 200 note)
  end.

(** [NoteDetail.put] *)
Definition NoteDetail_put (a : App) (e : Env) (json_body : Body) (note_id : Z)
  : App * Response :=
  if body_empty json_body
  then (a, Aborted 400 "Request body cannot be empty")
  else
    let blank_title :=
      match body_title json_body with
      | Some (Some title) => String.eqb (Str.strip title) ""
      | _ => false
      end in
    if blank_title
    then (a, Aborted 400 "title must be non-empty if provided")
    else
      let title := option_map Str.strip (body_get (body_title json_body)) in
      let content := body_get (body_content json_body) in
      let (a', r) := on_service a (fun w => update_note w e note_id title content) in
      match r with
      | Raise ex => (a', Uncaught ex)
      | Ok None => (a', Aborted 404 "Note not found")
      | Ok (Some updated) => (a', NoteJson 200 updated)
      end.

(** [NoteDetail.delete] *)
Definition NoteDetail_delete (a : App) (e : Env) (note_id : Z) : App * Response :=
  let (a', r) := on_service a (fun w => delete_note w e note_id) in
  match r with
  | Raise ex => (a', Uncaught ex)
  | Ok false => (a', Aborted 404 "Note not found")
  | Ok true => (a', NoContent)
  end.

(** The requests the blueprint routes. *)
Inductive Request : Type :=
| GET_list (page page_size : Z)
| POST (json_body : Body)
| GET_one (note_id : Z)
| PUT (json_body : Body) (note_id : Z)
| DELETE (note_id : Z).

Definition handle (a : App) (e : Env) (rq : Request) : App * Response :=
  match rq with
  | GET_list page page_size => NotesList_get a e page page_size
  | POST json_body => NotesList_post a e json_body
  | GET_one note_id => NoteDetail_get a e note_id
  | PUT json_body note_id => NoteDetail_put a e json_body note_id
  | DELETE note_id => NoteDetail_delete a e note_id
  end.

(** The process after a sequence of requests, each with its surroundings. *)
Fixpoint serve (a : App) (rqs : list (Env * Request)) : App :=
  match rqs with
  | [] => a
  | (e, rq) :: rqs' => serve (fst (handle a e rq)) rqs'
  end.

End Routes.

(** ** Runs of the service *)

Module Runs.

Import Services.

(** One call of a public operation of the service. *)
Inductive Call : Type :=
| Create (title : string) (content : option string)
| Get (note_id : Z)
| Update (note_id : Z) (title content : option string)
| Delete (note_id : Z)
| List (page page_size : Z).

(** The world a call leaves, whatever it returns or raises. *)
Definition after (w : World) (e : Env) (c : Call) : World :=
  match c with
  | Create title content => fst (create_note w e title content)
  | Get note_id => fst (get_note w e note_id)
  | Update note_id title content => fst (update_note w e note_id title content)
  | Delete note_id => fst (delete_note w e note_id)
  | List page page_size => fst (list_notes w e page page_size)
  end.

(** Whether a call raises to its caller. *)
Definition raises (w : World) (e : Env) (c : Call) : option exn :=
  let surfaced {A : Type} (r : result A) : option exn :=
    match r with Ok _ => None | Raise ex => Some ex end in
  match c with
  | Create title content => surfaced (snd (create_note w e title content))
  | Get note_id => surfaced (snd (get_note w e note_id))
  | Update note_id title content => surfaced (snd (update_note w e note_id title content))
  | Delete note_id => surfaced (snd (delete_note w e note_id))
  | List page page_size => surfaced (snd (list_notes w e page page_size))
  end.

Fixpoint run (w : World) (calls : list (Env * Call)) : World :=
  match calls with
  | [] => w
  | (e, c) :: calls' => run (after w e c) calls'
  end.

(** The note a backend holds under [note_id]: the in-memory store when
    [volatile], the table otherwise. *)
Definition stored_in (volatile : bool) (w : World) (note_id : Z) : option Models.Note :=
  if volatile
  then Dict.get (_mem_store (svc w)) note_id
  else Db.find_row (Db.rows (db w)) note_id.

(** The note the active backend holds under [note_id]. *)
Definition stored (w : World) (note_id : Z) : option Models.Note :=
  stored_in (_should_use_fallback (svc w)) w note_id.

(** All notes of the active backend. *)
Definition all_stored (w : World) : list Models.Note :=
  if _should_use_fallback (svc w)
  then Dict.values (_mem_store (svc w))
  else Db.rows (db w).

(** Every key of the in-memory store is below the counter. *)
Definition keys_below_counter (s : NotesService) : Prop :=
  Forall (fun kv => fst kv < _mem_next_id s) (_mem_store s).



(** The order of the listing: ids do not increase. *)
Definition id_ge (a b : Models.Note) : Prop := Models.id b <= Models.id a.

(** The page the listing contract asks for: the notes by descending id, cut
    at offset [(page-1)*page_size] for [page_size] items. *)
Definition page_by_desc_id (notes : list Models.Note) (page page_size : Z)
  : list Models.Note :=
  firstn (Z.to_nat page_size)
    (skipn (Z.to_nat ((page - 1) * page_size)) (Db.order_by_id_desc notes)).

End Runs.

(** ** Concrete worlds *)

Module Worlds.

Import Services Routes Runs.

(** A fresh service over an empty table. *)
Definition fresh : World :=
  {| svc := __init__; db := {| Db.rows := []; Db.requests := 0 |} |}.

Definition up (t : Time) : Env := {| now := t; read_ok := true; commit_ok := true |}.
Definition down (t : Time) : Env := {| now := t; read_ok := false; commit_ok := false |}.

(** Three notes created in memory, after the first commit failed. *)
Definition three_in_memory : World :=
  run fresh [(down 1, Create "one" None); (up 2, Create "two" None);
             (up 3, Create "three" None)].

(** One note committed to the table at instant 1. *)
Definition one_in_table : World :=
  run fresh [(up 1, Create "one" (Some "text"))].

(** The process as booted: module loaded, empty table. *)
Definition booted : App :=
  {| globals := loaded; database := {| Db.rows := []; Db.requests := 0 |} |}.

(** The body [{"title": " hello "}]. *)
Definition hello : Body :=
  {| body_title := Some (Some " hello "%string); body_content := None |}.

End Worlds.

(** ** The query schema ([schemas.py]) *)

Module Schemas.

(** [validate.Range(min=lo, max=hi)]: both bounds inclusive, either one
    optional. *)
Definition Range (lo hi : option Z) (v : Z) : bool :=
  match lo with Some l => l <=? v | None => true end
  && match hi with Some h => v <=? h | None => true end.

(** [fields.Integer(load_default=d, validate=valid)] on a parameter the query
    may omit: an omitted parameter loads as the default, a given one has to
    pass the validator. *)
Definition load_Integer (d : Z) (valid : Z -> bool) (raw : option Z) : option Z :=
  match raw with
  | None => Some d
  | Some v => if valid v then Some v else None
  end.

(** [PaginationQuerySchema().load(...)]: the loaded [page] and [page_size],
    or [None] for a validation error. *)
Definition PaginationQuerySchema (page page_size : option Z) : option (Z * Z) :=
  match load_Integer 1 (Range (Some 1) None) page,
        load_Integer 10 (Range (Some 1) (Some 100)) page_size with
  | Some p, Some ps => Some (p, ps)
  | _, _ => None
  end.

(** [NotesList.get] behind [@blp.arguments(PaginationQuerySchema,
    location="query")]: the handler runs on the loaded arguments; a query the
    schema refuses does not reach it ([None]). *)
Definition list_endpoint (a : Routes.App) (e : Env) (page page_size : option Z)
  : Routes.App * option Routes.Response :=
  match PaginationQuerySchema page page_size with
  | None => (a, None)
  | Some (p, ps) =>
      let (a', r) := Routes.NotesList_get a e p ps in (a', Some r)
  end.

End Schemas.

(** ** Traces and page walks *)

Module Walks.

Import Services Runs.

(** What each call of a run surfaces to its caller, in order. *)
Fixpoint surfaced (w : World) (calls : list (Env * Call)) : list (option exn) :=
  match calls with
  | [] => []
  | (e, c) :: calls' => raises w e c :: surfaced (after w e c) calls'
  end.

(** The order in which the active backend pages its notes. *)
Definition listing (w : World) : list Models.Note :=
  if _should_use_fallback (svc w)
  then Dict.values (_mem_store (svc w))
  else Db.order_by_id_desc (Db.rows (db w)).

(** The items of one [list_notes] call (none when it raises). *)
Definition page_items (w : World) (e : Env) (page page_size : Z) : list Models.Note :=
  match snd (list_notes w e page page_size) with
  | Ok (items, _) => items
  | Raise _ => []
  end.

(** The items collected by [n] successive [list_notes] calls, for the pages
    [page], [page + 1], ... *)
Fixpoint walk_pages (w : World) (e : Env) (page_size page : Z) (n : nat)
  : list Models.Note :=
  match n with
  | O => []
  | S n' =>
      page_items w e page page_size
      ++ walk_pages (fst (list_notes w e page page_size)) e page_size (page + 1) n'
  end.

(** A store with pairwise distinct keys, each record under its own id. *)
Definition filed (d : Dict.t) : Prop :=
  NoDup (map fst d) /\ Forall (fun kv => Models.id (snd kv) = fst kv) d.

(** The ids of a backend are pairwise distinct, and a record of the
    in-memory store is filed under its own id. *)
Definition distinct_ids (w : World) : Prop :=
  NoDup (map Models.id (Db.rows (db w))) /\
  NoDup (map fst (_mem_store (svc w))) /\
  Forall (fun kv => Models.id (snd kv) = fst kv) (_mem_store (svc w)).

(** The in-memory side of a service that has not fallen back yet. *)
Definition untouched (s : NotesService) : Prop :=
  _fallback_enabled s = false -> _mem_store s = [] /\ _mem_next_id s = 1.

(** No timestamp of either backend is later than [t], and no note was
    updated before it was created. *)
Definition timely (t : Time) (n : Models.Note) : Prop :=
  Models.created_at n <= Models.updated_at n /\ Models.updated_at n <= t.

Definition all_timely (t : Time) (w : World) : Prop :=
  Forall (timely t) (Db.rows (db w)) /\
  Forall (timely t) (Dict.values (_mem_store (svc w))).

(** The clock readings of a run never go back, starting from [t]. *)
Fixpoint clock_from (t : Time) (calls : list (Env * Call)) : Prop :=
  match calls with
  | [] => True
  | (e, _) :: calls' => t <= now e /\ clock_from (now e) calls'
  end.

(** The last clock reading of a run that started at [t]. *)
Fixpoint last_clock (t : Time) (calls : list (Env * Call)) : Time :=
  match calls with
  | [] => t
  | (e, _) :: calls' => last_clock (now e) calls'
  end.

End Walks.

(** * Properties *)

(** ** Pagination *)

Section PaginationFacts.

Import Pagination.

Lemma ceil_div_is_ceil (a b : Z) :
  0 < b -> exists q, ceil_div a b = Ok q /\ is_ceil a b q.
Proof.
  intros Hb. unfold ceil_div.
  destruct (Z.eqb_spec b 0) as [E | _]; [lia |].
  eexists; split; [reflexivity |].
  unfold is_ceil.
  pose proof (Z.div_mod (- a) b ltac:(lia)) as Hdm.
  pose proof (Z.mod_pos_bound (- a) b Hb) as Hm.
  nia.
Qed.

Lemma is_ceil_unique (a b q q' : Z) :
  0 < b -> is_ceil a b q -> is_ceil a b q' -> q = q'.
Proof. unfold is_ceil. intros Hb [H1 H2] [H3 H4]. nia. Qed.

Lemma pagination_meta_eq (t p ps : Z) :
  ps <> 0 ->
  pagination_meta t p ps =
  Ok (mkMeta t (Z.max (- ((- t) / ps)) 1) 1 (Z.max (- ((- t) / ps)) 1) p
        (if 1 <? p then Some (p - 1) else None)
        (if p <? Z.max (- ((- t) / ps)) 1 then Some (p + 1) else None)).
Proof.
  intros Hps. unfold pagination_meta, ceil_div.
  destruct (Z.eqb_spec ps 0) as [E | _]; [contradiction | reflexivity].
Qed.


(** [computeMeta(0, 1, 10)] *)
Example pagination_meta_empty :
  pagination_meta 0 1 10 = Ok (mkMeta 0 1 1 1 1 None None).
Proof. reflexivity. Qed.



End PaginationFacts.

(** ** The service: what each operation returns *)

Section ServiceFacts.

Import Services Runs.

(** The mutating operations, unfolded: under the flag the in-memory branch;
    otherwise the [try] block, and on [SQLAlchemyError] the in-memory branch
    of the service with the flag set. *)
Lemma create_note_eq (w : World) (e : Env) (t : string) (c : option string) :
  create_note w e t c =
  if _should_use_fallback (svc w)
  then (with_svc w (fst (mem_create (svc w) e t c)), Ok (snd (mem_create (svc w) e t c)))
  else
    match try_create (db w) e t c with
    | (d, Raise SQLAlchemyError) =>
        ({| svc := fst (mem_create (enable_fallback (svc w)) e t c); db := d |},
         Ok (snd (mem_create (enable_fallback (svc w)) e t c)))
    | (d, r) => (with_db w d, r)
    end.
Proof.
  funelim (create_note w e t c).
  - rewrite e0. reflexivity.
  - rewrite Hdurable, Heq. reflexivity.
  - rewrite Hdurable, Heq. simp create_note. reflexivity.
  - rewrite Hdurable, Heq. reflexivity.
Qed.

Lemma update_note_eq (w : World) (e : Env) (k : Z) (t c : option string) :
  update_note w e k t c =
  if _should_use_fallback (svc w)
  then (with_svc w (fst (mem_update (svc w) e k t c)), Ok (snd (mem_update (svc w) e k t c)))
  else
    match try_update (db w) e k t c with
    | (d, Raise SQLAlchemyError) =>
        ({| svc := fst (mem_update (enable_fallback (svc w)) e k t c); db := d |},
         Ok (snd (mem_update (enable_fallback (svc w)) e k t c)))
    | (d, r) => (with_db w d, r)
    end.
Proof.
  funelim (update_note w e k t c).
  - rewrite e0. destruct (mem_update (svc w) e note_id title content); reflexivity.
  - rewrite Hdurable, Heq. reflexivity.
  - rewrite Hdurable, Heq. simp update_note. cbn.
    destruct (mem_update (enable_fallback (svc w)) e note_id title content); reflexivity.
  - rewrite Hdurable, Heq. reflexivity.
Qed.

Lemma delete_note_eq (w : World) (e : Env) (k : Z) :
  delete_note w e k =
  if _should_use_fallback (svc w)
  then (with_svc w (fst (mem_delete (svc w) k)), Ok (snd (mem_delete (svc w) k)))
  else
    match try_delete (db w) e k with
    | (d, Raise SQLAlchemyError) =>
        ({| svc := fst (mem_delete (enable_fallback (svc w)) k); db := d |},
         Ok (snd (mem_delete (enable_fallback (svc w)) k)))
    | (d, r) => (with_db w d, r)
    end.
Proof.
  funelim (delete_note w e k).
  - rewrite e0. reflexivity.
  - rewrite Hdurable, Heq. reflexivity.
  - rewrite Hdurable, Heq. simp delete_note. reflexivity.
  - rewrite Hdurable, Heq. reflexivity.
Qed.







(** Under the flag no operation touches the database: no request is sent and
    the flag stays set. *)
Lemma fallback_serves_in_memory (w : World) (e : Env) (c : Call) :
  _fallback_enabled (svc w) = true ->
  _fallback_enabled (svc (after w e c)) = true /\
  db (after w e c) = db w /\
  raises w e c = None.
Proof.
  intros Hf. destruct c as [t c | k | k t c | k | p ps]; unfold after, raises.
  - rewrite create_note_eq. unfold _should_use_fallback. rewrite Hf. cbn. auto.
  - unfold get_note, _should_use_fallback. rewrite Hf. cbn. auto.
  - rewrite update_note_eq. unfold _should_use_fallback. rewrite Hf. cbn.
    unfold mem_update. destruct (Dict.get (_mem_store (svc w)) k); cbn; auto.
  - rewrite delete_note_eq. unfold _should_use_fallback. rewrite Hf. cbn. auto.
  - unfold list_notes, _should_use_fallback. rewrite Hf. cbn. auto.
Qed.

(** The flag is never cleared. *)
Lemma fallback_is_permanent (w : World) (calls : list (Env * Call)) :
  _fallback_enabled (svc w) = true ->
  _fallback_enabled (svc (run w calls)) = true /\ db (run w calls) = db w.
Proof.
  revert w. induction calls as [| [e c] calls IH]; intros w Hf; cbn; [auto |].
  destruct (fallback_serves_in_memory w e c Hf) as (H1 & H2 & _).
  destruct (IH _ H1) as (H3 & H4). split; congruence.
Qed.

(** While the flag is off every operation sends at least one request to the
    database. *)
Lemma durable_is_asked (w : World) (e : Env) (c : Call) :
  _fallback_enabled (svc w) = false ->
  Nat.lt (Db.requests (db w)) (Db.requests (db (after w e c))).
Proof.
  intros Hf. destruct c as [t c | k | k t c | k | p ps]; unfold after.
  - rewrite create_note_eq. unfold _should_use_fallback. rewrite Hf.
    unfold try_create, Db.session_commit.
    destruct (commit_ok e); cbn; lia.
  - unfold get_note, _should_use_fallback. rewrite Hf. cbn. lia.
  - rewrite update_note_eq. unfold _should_use_fallback. rewrite Hf.
    unfold try_update, Db.session_get, Db.session_commit.
    destruct (read_ok e); cbn; [| lia].
    destruct (Db.find_row (Db.rows (db w)) k); cbn; [| lia].
    destruct (commit_ok e); cbn; lia.
  - rewrite delete_note_eq. unfold _should_use_fallback. rewrite Hf.
    unfold try_delete, Db.session_get, Db.session_commit.
    destruct (read_ok e); cbn; [| lia].
    destruct (Db.find_row (Db.rows (db w)) k); cbn; [| lia].
    destruct (commit_ok e); cbn; lia.
  - unfold list_notes, _should_use_fallback. rewrite Hf.
    unfold Db.query_count, Db.query_page.
    destruct (read_ok e); cbn; lia.
Qed.

(** C3 (the code departs from it). [get_note] and [list_notes] have no
    handler: when the read raises while the flag is off, the error reaches
    the caller, the flag stays off and nothing is retried in memory. *)
Theorem reads_surface_storage_error (w : World) (e : Env) (k p ps : Z) :
  _fallback_enabled (svc w) = false ->
  read_ok e = false ->
  snd (get_note w e k) = Raise SQLAlchemyError /\
  snd (list_notes w e p ps) = Raise SQLAlchemyError /\
  _fallback_enabled (svc (fst (get_note w e k))) = false /\
  _fallback_enabled (svc (fst (list_notes w e p ps))) = false.
Proof.
  intros Hf Hr.
  unfold get_note, list_notes, _should_use_fallback, Db.session_get, Db.query_count.
  rewrite Hf, Hr. cbn. auto.
Qed.

(** C2 (the code departs from it). After a storage error raised by a read,
    the flag is still off and the next operation, of any kind, goes to the
    database again. *)
Theorem durable_asked_again_after_read_error
    (w : World) (e : Env) (k : Z) (e' : Env) (c : Call) :
  _fallback_enabled (svc w) = false ->
  read_ok e = false ->
  raises w e (Get k) = Some SQLAlchemyError /\
  _fallback_enabled (svc (after w e (Get k))) = false /\
  Nat.lt (Db.requests (db (after w e (Get k))))
         (Db.requests (db (after (after w e (Get k)) e' c))).
Proof.
  intros Hf Hr.
  assert (Hflag : _fallback_enabled (svc (after w e (Get k))) = false).
  { unfold after, get_note, _should_use_fallback. rewrite Hf. cbn. exact Hf. }
  split; [| split].
  - unfold raises, get_note, _should_use_fallback, Db.session_get.
    rewrite Hf, Hr. reflexivity.
  - exact Hflag.
  - apply durable_is_asked. exact Hflag.
Qed.

End ServiceFacts.

(** ** Listing *)

Section ListingFacts.

Import Services Runs.

Lemma insert_desc_perm n l : Permutation (n :: l) (Db.insert_desc n l).
Proof.
  induction l as [| m l IH]; cbn; [apply Permutation_refl |].
  destruct (Models.id m <=? Models.id n); [apply Permutation_refl |].
  eapply perm_trans; [apply perm_swap |]. apply perm_skip. exact IH.
Qed.

Lemma order_by_id_desc_perm rs : Permutation rs (Db.order_by_id_desc rs).
Proof.
  induction rs as [| n rs IH]; cbn; [constructor |].
  eapply perm_trans; [apply perm_skip; exact IH |]. apply insert_desc_perm.
Qed.

Lemma insert_desc_hd n m l :
  id_ge m n -> HdRel id_ge m l -> HdRel id_ge m (Db.insert_desc n l).
Proof.
  intros Hmn Hhd. destruct l as [| x l]; cbn; [constructor; exact Hmn |].
  destruct (Models.id x <=? Models.id n); constructor; [exact Hmn |].
  inversion Hhd; assumption.
Qed.

Lemma insert_desc_sorted n l :
  Sorted id_ge l -> Sorted id_ge (Db.insert_desc n l).
Proof.
  induction l as [| m l IH]; intros Hs; cbn.
  - repeat constructor.
  - inversion Hs as [| ? ? Hl Hhd]; subst.
    destruct (Z.leb_spec (Models.id m) (Models.id n)) as [Hle | Hgt].
    + constructor; [exact Hs |]. constructor. exact Hle.
    + constructor; [apply IH; exact Hl |].
      apply insert_desc_hd; [unfold id_ge; lia | exact Hhd].
Qed.

(** The rows as the query orders them: by descending id, and the same rows. *)
Lemma order_by_id_desc_sorted rs : Sorted id_ge (Db.order_by_id_desc rs).
Proof.
  induction rs as [| n rs IH]; cbn; [constructor |].
  apply insert_desc_sorted. exact IH.
Qed.

(** On the durable backend [list_notes] returns the page cut out of the rows
    by descending id, and the count of all rows. *)
Lemma durable_list_by_desc_id (w : World) (e : Env) (p ps : Z) :
  _fallback_enabled (svc w) = false ->
  read_ok e = true ->
  1 <= p -> 1 <= ps ->
  snd (list_notes w e p ps) =
  Ok (page_by_desc_id (all_stored w) p ps, Z.of_nat (List.length (all_stored w))).
Proof.
  intros Hf Hr Hp Hps.
  unfold list_notes, all_stored, _should_use_fallback, Db.query_count, Db.query_page.
  rewrite Hf, Hr. cbn.
  unfold page_by_desc_id, Db.limit, Db.offset.
  destruct (Z.ltb_spec ps 0); [lia | reflexivity].
Qed.

(** On the in-memory backend it returns the slice of the values in insertion
    order, and the count of all records. *)
Lemma mem_list_by_insertion (w : World) (e : Env) (p ps : Z) :
  _fallback_enabled (svc w) = true ->
  1 <= p -> 1 <= ps ->
  list_notes w e p ps =
  (w, Ok (firstn (Z.to_nat ps) (skipn (Z.to_nat ((p - 1) * ps)) (all_stored w)),
          Z.of_nat (List.length (all_stored w)))).
Proof.
  intros Hf Hp Hps.
  unfold list_notes, all_stored, _should_use_fallback, mem_list.
  rewrite Hf. f_equal. f_equal. f_equal.
  unfold slice.
  set (l := Dict.values (_mem_store (svc w))).
  set (len := Z.of_nat (List.length l)).
  assert (Hlen : 0 <= len) by (unfold len; lia).
  assert (Hs : 0 <= (p - 1) * ps) by nia.
  destruct (Z.ltb_spec ((p - 1) * ps) 0); [lia |].
  destruct (Z.ltb_spec ((p - 1) * ps + ps) 0); [lia |].
  destruct (Z.le_gt_cases len ((p - 1) * ps)) as [Hbig | Hsmall].
  - rewrite !Z.min_r by lia.
    rewrite !skipn_all2 by (fold len; lia).
    rewrite !firstn_nil. reflexivity.
  - rewrite (Z.min_l ((p - 1) * ps) len) by lia.
    destruct (Z.le_gt_cases ((p - 1) * ps + ps) len) as [Hin | Hout].
    + rewrite Z.min_l by lia. f_equal. lia.
    + rewrite Z.min_r by lia.
      rewrite !firstn_all2; [reflexivity | |]; rewrite length_skipn; fold len; lia.
Qed.

End ListingFacts.

(** ** Update and delete *)

Section UpdateDeleteFacts.

Import Services Runs.

Lemma find_row_id rs k n : Db.find_row rs k = Some n -> Models.id n = k.
Proof.
  unfold Db.find_row. intros H. apply find_some in H as [_ H].
  apply Z.eqb_eq. exact H.
Qed.

Lemma find_row_delete_row rs k : Db.find_row (Db.delete_row rs k) k = None.
Proof.
  unfold Db.find_row, Db.delete_row.
  induction rs as [| r rs IH]; cbn; [reflexivity |].
  destruct (Z.eqb_spec (Models.id r) k) as [E | N]; cbn; [exact IH |].
  destruct (Z.eqb_spec (Models.id r) k); [contradiction | exact IH].
Qed.

Lemma find_row_replace_row rs n m :
  Db.find_row rs (Models.id n) = Some m ->
  Db.find_row (Db.replace_row rs n) (Models.id n) = Some n.
Proof.
  unfold Db.find_row, Db.replace_row.
  induction rs as [| r rs IH]; cbn; [discriminate |].
  destruct (Z.eqb_spec (Models.id r) (Models.id n)) as [E | N]; cbn.
  - intros _. rewrite Z.eqb_refl. reflexivity.
  - destruct (Z.eqb_spec (Models.id r) (Models.id n)); [contradiction | exact IH].
Qed.

Lemma dict_get_remove d k : Dict.get (Dict.remove d k) k = None.
Proof.
  unfold Dict.remove.
  induction d as [| [k' v] d IH]; cbn; [reflexivity |].
  destruct (Z.eqb_spec k' k) as [E | N]; cbn; [exact IH |].
  destruct (Z.eqb_spec k' k); [contradiction | exact IH].
Qed.

Lemma dict_get_set d k v : Dict.get (Dict.set d k v) k = Some v.
Proof.
  induction d as [| [k' v'] d IH]; cbn.
  - rewrite Z.eqb_refl. reflexivity.
  - destruct (Z.eqb_spec k' k) as [E | N]; cbn.
    + rewrite Z.eqb_refl. reflexivity.
    + destruct (Z.eqb_spec k' k); [contradiction | exact IH].
Qed.

(** A row whose columns are assigned nothing new is left as it is,
    [updated_at] included. *)
Lemma updated_without_fields n e : Db.updated n e None None = n.
Proof.
  unfold Db.updated. rewrite !String.eqb_refl. cbn. destruct n; reflexivity.
Qed.

(** In memory, an update with no field supplied keeps title and content and
    sets [updated_at] to the instant of the call. *)
Lemma mem_update_without_fields (w : World) (e : Env) (k : Z) (n : Models.Note) :
  _fallback_enabled (svc w) = true ->
  Dict.get (_mem_store (svc w)) k = Some n ->
  let n' := Models.mkNote (Models.id n) (Models.title n) (Models.content n)
              (Models.created_at n) (now e) in
  snd (update_note w e k None None) = Ok (Some n') /\
  stored (fst (update_note w e k None None)) k = Some n'.
Proof.
  intros Hf Hget n'.
  rewrite update_note_eq. unfold _should_use_fallback. rewrite Hf.
  unfold mem_update. rewrite Hget. cbn.
  split; [reflexivity |].
  unfold stored, stored_in, _should_use_fallback. cbn. rewrite Hf.
  apply dict_get_set.
Qed.

(** C5 (the code departs from it). On the durable backend an update with no
    field supplied assigns no column, so the commit writes no UPDATE and the
    [onupdate] default of [updated_at] does not run: the note comes back as
    it was stored, with its old [updated_at], whatever the instant of the
    call. *)
Theorem durable_update_without_fields_keeps_updated_at
    (w : World) (e : Env) (k : Z) (n : Models.Note) :
  _fallback_enabled (svc w) = false ->
  read_ok e = true -> commit_ok e = true ->
  Db.find_row (Db.rows (db w)) k = Some n ->
  snd (update_note w e k None None) = Ok (Some n) /\
  stored (fst (update_note w e k None None)) k = Some n.
Proof.
  intros Hf Hr Hc Hrow.
  pose proof (find_row_id _ _ _ Hrow) as Hid.
  rewrite update_note_eq. unfold _should_use_fallback. rewrite Hf.
  unfold try_update, Db.session_get, Db.session_commit.
  rewrite Hr. cbn. rewrite Hrow, Hc. cbn.
  rewrite updated_without_fields.
  split; [reflexivity |].
  unfold stored, stored_in, _should_use_fallback. cbn. rewrite Hf.
  subst k. eapply find_row_replace_row. exact Hrow.
Qed.

Lemma mem_delete_spec (s : NotesService) (k : Z) :
  _fallback_enabled (fst (mem_delete s k)) = _fallback_enabled s /\
  Dict.get (_mem_store (fst (mem_delete s k))) k = None /\
  (snd (mem_delete s k) = true <-> Dict.get (_mem_store s) k <> None).
Proof.
  unfold mem_delete, Dict.pop. cbn.
  split; [reflexivity |]. split; [apply dict_get_remove |].
  destruct (Dict.get (_mem_store s) k); split; congruence.
Qed.

(** Which backend serves a [delete_note]: the in-memory store, already active
    or activated by the call; or the table, when the session answered. *)
Lemma delete_note_served (w : World) (e : Env) (k : Z) :
  (exists s d,
     _fallback_enabled s = true /\
     _mem_store s = _mem_store (svc w) /\
     delete_note w e k =
       ({| svc := fst (mem_delete s k); db := d |}, Ok (snd (mem_delete s k))))
  \/
  (exists d b,
     _fallback_enabled (svc w) = false /\
     delete_note w e k = ({| svc := svc w; db := d |}, Ok b) /\
     Db.find_row (Db.rows d) k = None /\
     (b = true <-> Db.find_row (Db.rows (db w)) k <> None)).
Proof.
  rewrite delete_note_eq. unfold _should_use_fallback.
  destruct (_fallback_enabled (svc w)) eqn:Hf.
  - left. exists (svc w), (db w). auto.
  - unfold try_delete, Db.session_get, Db.session_commit.
    destruct (read_ok e).
    + destruct (Db.find_row (Db.rows (db w)) k) as [n |] eqn:Hrow.
      * destruct (commit_ok e).
        -- right. do 2 eexists. split; [reflexivity |].
           split; [reflexivity |]. cbn [Db.rows Db.asked].
           rewrite (find_row_id _ _ _ Hrow).
           split; [apply find_row_delete_row |]. split; congruence.
        -- left. do 2 eexists. split; [| split; [| reflexivity]]; reflexivity.
      * right. do 2 eexists. split; [reflexivity |].
        split; [reflexivity |]. cbn [Db.rows Db.asked].
        split; [exact Hrow |]. split; congruence.
    + left. do 2 eexists. split; [| split; [| reflexivity]]; reflexivity.
Qed.


End UpdateDeleteFacts.

(** ** Identifiers of the in-memory store *)

Section CounterFacts.

Import Services Runs.

Lemma mem_update_counter s e k t c :
  _mem_next_id (fst (mem_update s e k t c)) = _mem_next_id s.
Proof.
  unfold mem_update. destruct (Dict.get (_mem_store s) k); reflexivity.
Qed.

Lemma try_create_cases d e t c :
  (exists d' n, try_create d e t c = (d', Ok n)) \/
  (exists d', try_create d e t c = (d', Raise SQLAlchemyError)).
Proof.
  unfold try_create, Db.session_commit.
  destruct (commit_ok e); cbn; [left | right]; repeat eexists.
Qed.

Lemma try_update_cases d e k t c :
  (exists d' r, try_update d e k t c = (d', Ok r)) \/
  (exists d', try_update d e k t c = (d', Raise SQLAlchemyError)).
Proof.
  unfold try_update, Db.session_get, Db.session_commit.
  destruct (read_ok e); [| right; repeat eexists].
  destruct (Db.find_row (Db.rows d) k); [| left; repeat eexists].
  destruct (commit_ok e); cbn; [left | right]; repeat eexists.
Qed.

Lemma try_delete_cases d e k :
  (exists d' r, try_delete d e k = (d', Ok r)) \/
  (exists d', try_delete d e k = (d', Raise SQLAlchemyError)).
Proof.
  unfold try_delete, Db.session_get, Db.session_commit.
  destruct (read_ok e); [| right; repeat eexists].
  destruct (Db.find_row (Db.rows d) k); [| left; repeat eexists].
  destruct (commit_ok e); cbn; [left | right]; repeat eexists.
Qed.

(** [delete_note] leaves the counter as it is. *)
Lemma delete_note_counter (w : World) (e : Env) (k : Z) :
  _mem_next_id (svc (fst (delete_note w e k))) = _mem_next_id (svc w).
Proof.
  rewrite delete_note_eq.
  destruct (_should_use_fallback (svc w)); [reflexivity |].
  destruct (try_delete_cases (db w) e k) as [(d & r & ->) | (d & ->)]; reflexivity.
Qed.

(** No operation decreases the counter. *)
Lemma counter_never_decreases (w : World) (e : Env) (c : Call) :
  _mem_next_id (svc w) <= _mem_next_id (svc (after w e c)).
Proof.
  destruct c as [t c | k | k t c | k | p ps]; unfold after.
  - rewrite create_note_eq.
    destruct (_should_use_fallback (svc w)); [cbn; lia |].
    destruct (try_create_cases (db w) e t c) as [(d & r & ->) | (d & ->)]; cbn; lia.
  - unfold get_note. destruct (_should_use_fallback (svc w)); [cbn; lia |].
    destruct (Db.session_get (db w) e k). cbn. lia.
  - rewrite update_note_eq.
    destruct (_should_use_fallback (svc w));
      [cbn [fst with_svc svc]; rewrite mem_update_counter; lia |].
    destruct (try_update_cases (db w) e k t c) as [(d & r & ->) | (d & ->)];
      cbn [fst with_db svc]; [lia |].
    rewrite mem_update_counter. cbn. lia.
  - rewrite delete_note_counter. lia.
  - unfold list_notes. destruct (_should_use_fallback (svc w)); [cbn; lia |].
    destruct (Db.query_count (db w) e) as [d1 [n | ex]]; [| cbn; lia].
    destruct (Db.query_page d1 e ((p - 1) * ps) ps). cbn. lia.
Qed.

Lemma counter_never_decreases_run (w : World) (calls : list (Env * Call)) :
  _mem_next_id (svc w) <= _mem_next_id (svc (run w calls)).
Proof.
  revert w. induction calls as [| [e c] calls IH]; intros w; cbn; [lia |].
  pose proof (counter_never_decreases w e c). pose proof (IH (after w e c)). lia.
Qed.

(** A [create_note] that ends under the flag was served in memory: the note
    takes the current counter as its id and the counter moves up by one. *)
Lemma create_note_in_memory (w : World) (e : Env) (t : string) (c : option string) :
  _fallback_enabled (svc (fst (create_note w e t c))) = true ->
  exists n,
    snd (create_note w e t c) = Ok n /\
    Models.id n = _mem_next_id (svc w) /\
    _mem_next_id (svc (fst (create_note w e t c))) = _mem_next_id (svc w) + 1.
Proof.
  rewrite create_note_eq. unfold _should_use_fallback.
  destruct (_fallback_enabled (svc w)) eqn:Hf.
  - intros _. eexists. split; [reflexivity |]. cbn. auto.
  - destruct (try_create_cases (db w) e t c) as [(d & r & ->) | (d & ->)].
    + cbn. congruence.
    + intros _. eexists. split; [reflexivity |]. cbn. auto.
Qed.

(** The keys of the store stay below the counter, so the id a create is about
    to take is bound to no record. *)
Lemma dict_set_forall (P : Z * Models.Note -> Prop) d k v :
  Forall P d -> P (k, v) -> Forall P (Dict.set d k v).
Proof.
  intros Hd Hv. induction Hd as [| [k' v'] d Hx Hd IH]; cbn.
  - constructor; [exact Hv | constructor].
  - destruct (k' =? k); constructor; assumption.
Qed.

Lemma dict_get_in d k v : Dict.get d k = Some v -> In (k, v) d.
Proof.
  induction d as [| [k' v'] d IH]; cbn; [discriminate |].
  destruct (Z.eqb_spec k' k) as [-> | _]; [intros [= ->]; left; reflexivity |].
  intros H. right. exact (IH H).
Qed.

Lemma keys_below_counter_after (w : World) (e : Env) (c : Call) :
  keys_below_counter (svc w) -> keys_below_counter (svc (after w e c)).
Proof.
  intros Hk.
  assert (Hcreate : forall s t co, _mem_store s = _mem_store (svc w) ->
            _mem_next_id s = _mem_next_id (svc w) ->
            keys_below_counter (fst (mem_create s e t co))).
  { intros s t co Hs Hn. unfold keys_below_counter, mem_create. cbn. rewrite Hs, Hn.
    apply dict_set_forall; [| cbn; lia].
    eapply Forall_impl; [| exact Hk]. cbn. intros; lia. }
  assert (Hupdate : forall s k t co, _mem_store s = _mem_store (svc w) ->
            _mem_next_id s = _mem_next_id (svc w) ->
            keys_below_counter (fst (mem_update s e k t co))).
  { intros s k t co Hs Hn. unfold keys_below_counter, mem_update. rewrite Hs.
    destruct (Dict.get (_mem_store (svc w)) k) as [n |] eqn:Hget; cbn;
      rewrite Hn; [| rewrite Hs; exact Hk].
    apply dict_set_forall; [exact Hk |].
    apply dict_get_in in Hget. unfold keys_below_counter in Hk.
    rewrite Forall_forall in Hk. exact (Hk _ Hget). }
  assert (Hdelete : forall s k, _mem_store s = _mem_store (svc w) ->
            _mem_next_id s = _mem_next_id (svc w) ->
            keys_below_counter (fst (mem_delete s k))).
  { intros s k Hs Hn. unfold keys_below_counter, mem_delete, Dict.pop, Dict.remove.
    cbn. rewrite Hs, Hn. apply Forall_forall. intros x Hx.
    apply filter_In in Hx as [Hx _]. unfold keys_below_counter in Hk.
    rewrite Forall_forall in Hk. exact (Hk _ Hx). }
  destruct c as [t c | k | k t c | k | p ps]; unfold after.
  - rewrite create_note_eq.
    destruct (_should_use_fallback (svc w)); [apply Hcreate; reflexivity |].
    destruct (try_create_cases (db w) e t c) as [(d & r & ->) | (d & ->)];
      [exact Hk | apply Hcreate; reflexivity].
  - unfold get_note. destruct (_should_use_fallback (svc w)); [exact Hk |].
    destruct (Db.session_get (db w) e k). exact Hk.
  - rewrite update_note_eq.
    destruct (_should_use_fallback (svc w)); [apply Hupdate; reflexivity |].
    destruct (try_update_cases (db w) e k t c) as [(d & r & ->) | (d & ->)];
      [exact Hk | apply Hupdate; reflexivity].
  - rewrite delete_note_eq.
    destruct (_should_use_fallback (svc w)); [apply Hdelete; reflexivity |].
    destruct (try_delete_cases (db w) e k) as [(d & r & ->) | (d & ->)];
      [exact Hk | apply Hdelete; reflexivity].
  - unfold list_notes. destruct (_should_use_fallback (svc w)); [exact Hk |].
    destruct (Db.query_count (db w) e) as [d1 [n | ex]]; [| exact Hk].
    destruct (Db.query_page d1 e ((p - 1) * ps) ps). exact Hk.
Qed.

Lemma keys_below_counter_run (w : World) (calls : list (Env * Call)) :
  keys_below_counter (svc w) -> keys_below_counter (svc (run w calls)).
Proof.
  revert w. induction calls as [| [e c] calls IH]; intros w Hk; cbn; [exact Hk |].
  apply IH. apply keys_below_counter_after. exact Hk.
Qed.

(** After any calls on a new service, the id the next in-memory create takes
    is the id of no record of the store. *)
Lemma next_id_is_unused (db0 : Db.t) (calls : list (Env * Call)) :
  let w := run {| svc := __init__; db := db0 |} calls in
  Dict.get (_mem_store (svc w)) (_mem_next_id (svc w)) = None.
Proof.
  intros w.
  assert (Hk : keys_below_counter (svc w)).
  { apply keys_below_counter_run. constructor. }
  destruct (Dict.get (_mem_store (svc w)) (_mem_next_id (svc w))) as [n |] eqn:Hget;
    [| reflexivity].
  apply dict_get_in in Hget. unfold keys_below_counter in Hk.
  rewrite Forall_forall in Hk. specialize (Hk _ Hget). cbn in Hk. lia.
Qed.

(** C10. Two notes created in the in-memory store, with any calls in between
    (deletions included): each takes the counter of its moment as id, the
    counter only moves up, and the later note has the larger id. *)
Theorem volatile_ids_strictly_increase
    (w : World) (e1 : Env) (t1 : string) (c1 : option string)
    (calls : list (Env * Call)) (e2 : Env) (t2 : string) (c2 : option string) :
  _fallback_enabled (svc (fst (create_note w e1 t1 c1))) = true ->
  exists n1 n2,
    snd (create_note w e1 t1 c1) = Ok n1 /\
    snd (create_note (run (fst (create_note w e1 t1 c1)) calls) e2 t2 c2) = Ok n2 /\
    Models.id n1 = _mem_next_id (svc w) /\
    _mem_next_id (svc (fst (create_note w e1 t1 c1))) = Models.id n1 + 1 /\
    _mem_next_id (svc (fst (create_note w e1 t1 c1)))
      <= _mem_next_id (svc (run (fst (create_note w e1 t1 c1)) calls)) /\
    Models.id n2 = _mem_next_id (svc (run (fst (create_note w e1 t1 c1)) calls)) /\
    Models.id n1 < Models.id n2.
Proof.
  intros Hflag.
  destruct (create_note_in_memory w e1 t1 c1 Hflag) as (n1 & Hr1 & Hid1 & Hnext1).
  set (w1 := fst (create_note w e1 t1 c1)) in *.
  destruct (fallback_is_permanent w1 calls Hflag) as (Hflag2 & _).
  set (w2 := run w1 calls) in *.
  assert (Hflag3 : _fallback_enabled (svc (fst (create_note w2 e2 t2 c2))) = true).
  { destruct (fallback_serves_in_memory w2 e2 (Create t2 c2) Hflag2) as (H & _).
    exact H. }
  destruct (create_note_in_memory w2 e2 t2 c2 Hflag3) as (n2 & Hr2 & Hid2 & _).
  pose proof (counter_never_decreases_run w1 calls) as Hmono. fold w2 in Hmono.
  exists n1, n2. repeat split; try assumption; lia.
Qed.

End CounterFacts.

(** ** The singleton accessor *)

Section AccessorFacts.

Import Services Routes.

Lemma get_notes_service_again (g : Globals) :
  get_notes_service (fst (get_notes_service g)) =
  (fst (get_notes_service g), snd (get_notes_service g)).
Proof.
  unfold get_notes_service.
  destruct (_notes_service g) as [inst |] eqn:Hg; cbn; [rewrite Hg |]; reflexivity.
Qed.

(** A handler leaves the global bound to the same object and constructs no
    other one. *)
Lemma on_service_keeps_instance {A : Type} (a : App) (op : World -> World * result A)
    (inst : Instance) :
  _notes_service (globals a) = Some inst ->
  exists inst',
    _notes_service (globals (fst (on_service a op))) = Some inst' /\
    oid inst' = oid inst /\
    constructed (globals (fst (on_service a op))) = constructed (globals a).
Proof.
  intros Hg. unfold on_service, get_notes_service. rewrite Hg.
  destruct (op _) as [w r]. cbn. eexists. split; [reflexivity |]. auto.
Qed.

Lemma handle_keeps_instance (a : App) (e : Env) (rq : Request) (inst : Instance) :
  _notes_service (globals a) = Some inst ->
  exists inst',
    _notes_service (globals (fst (handle a e rq))) = Some inst' /\
    oid inst' = oid inst /\
    constructed (globals (fst (handle a e rq))) = constructed (globals a).
Proof.
  intros Hg.
  assert (Hsame : exists inst', _notes_service (globals a) = Some inst' /\
            oid inst' = oid inst /\ constructed (globals a) = constructed (globals a))
    by (exists inst; auto).
  destruct rq as [p ps | body | k | body k | k]; cbn [handle].
  - unfold NotesList_get.
    pose proof (on_service_keeps_instance a (fun w => list_notes w e p ps) inst Hg) as H.
    destruct (on_service a _) as [a' [[items total] | ex]]; cbn [fst] in *;
      [| exact H].
    destruct (Pagination.pagination_meta total p ps); exact H.
  - unfold NotesList_post.
    destruct (body_get (body_title body)) as [title |]; [| exact Hsame].
    destruct (String.eqb (Str.strip title) ""); [exact Hsame |].
    pose proof (on_service_keeps_instance a
      (fun w => create_note w e (Str.strip title) (body_get (body_content body)))
      inst Hg) as H.
    destruct (on_service a _) as [a' [n | ex]]; exact H.
  - unfold NoteDetail_get.
    pose proof (on_service_keeps_instance a (fun w => get_note w e k) inst Hg) as H.
    destruct (on_service a _) as [a' [[n |] | ex]]; exact H.
  - unfold NoteDetail_put.
    destruct (body_empty body); [exact Hsame |].
    match goal with |- context [if ?b then (a, _) else _] => destruct b end;
      [exact Hsame |].
    pose proof (on_service_keeps_instance a
      (fun w => update_note w e k
                  (option_map Str.strip (body_get (body_title body)))
                  (body_get (body_content body))) inst Hg) as H.
    destruct (on_service a _) as [a' [[n |] | ex]]; exact H.
  - unfold NoteDetail_delete.
    pose proof (on_service_keeps_instance a (fun w => delete_note w e k) inst Hg) as H.
    destruct (on_service a _) as [a' [[|] | ex]]; exact H.
Qed.

Lemma serve_keeps_instance (a : App) (rqs : list (Env * Request)) (inst : Instance) :
  _notes_service (globals a) = Some inst ->
  exists inst',
    _notes_service (globals (serve a rqs)) = Some inst' /\
    oid inst' = oid inst /\
    constructed (globals (serve a rqs)) = constructed (globals a).
Proof.
  revert a inst. induction rqs as [| [e rq] rqs IH]; intros a inst Hg; cbn [serve].
  - exists inst. auto.
  - destruct (handle_keeps_instance a e rq inst Hg) as (i1 & H1 & H2 & H3).
    destruct (IH _ i1 H1) as (i2 & H4 & H5 & H6).
    exists i2. split; [exact H4 |]. split; congruence.
Qed.

(** C8. The first call of the accessor on the freshly loaded module
    constructs one service, with the flag off, an empty store and the counter
    at 1, and binds the global to it; a call made after another call changes
    nothing and returns the same object; and after any requests served since
    the first call the accessor still returns that object, the only one ever
    constructed. *)
Theorem get_notes_service_singleton :
  get_notes_service loaded =
    ({| _notes_service := Some {| oid := 0; fields := __init__ |}; constructed := 1 |},
     {| oid := 0; fields := __init__ |}) /\
  _fallback_enabled __init__ = false /\
  (forall g : Globals,
     get_notes_service (fst (get_notes_service g)) =
     (fst (get_notes_service g), snd (get_notes_service g))) /\
  (forall (d : Db.t) (rqs : list (Env * Request)),
     let a := serve {| globals := fst (get_notes_service loaded); database := d |} rqs in
     oid (snd (get_notes_service (globals a))) = oid (snd (get_notes_service loaded)) /\
     fst (get_notes_service (globals a)) = globals a /\
     constructed (globals a) = 1%nat).
Proof.
  split; [reflexivity |]. split; [reflexivity |].
  split; [exact get_notes_service_again |].
  intros d rqs a.
  destruct (serve_keeps_instance
              {| globals := fst (get_notes_service loaded); database := d |} rqs
              {| oid := 0; fields := __init__ |} eq_refl) as (i & H1 & H2 & H3).
  fold a in H1, H3. unfold get_notes_service at 1 3. rewrite H1. cbn.
  auto.
Qed.

End AccessorFacts.

(** ** Titles *)

Section TitleFacts.

Import Services Routes Runs.

Lemma rstrip_all_space (x : string) :
  Str.all_space (Str.rstrip x) = true -> Str.rstrip x = ""%string.
Proof.
  induction x as [| c x IH]; cbn; [reflexivity |].
  destruct (Str.rstrip x) as [| c' r] eqn:E.
  - destruct (Str.isspace c) eqn:Hc; [reflexivity |].
    cbn. rewrite Hc. discriminate.
  - cbn [Str.all_space]. intros H.
    apply andb_true_iff in H as [_ H]. specialize (IH H). discriminate.
Qed.

(** A title that is not empty after trimming is not blank. *)
Lemma strip_not_blank (t : string) :
  Str.strip t <> ""%string -> ~ Str.blank (Str.strip t).
Proof.
  unfold Str.blank, Str.strip. intros Hne Hb. apply Hne.
  apply rstrip_all_space. exact Hb.
Qed.

Lemma rows_below_next_id rs r : In r rs -> Models.id r < Db.next_id rs.
Proof.
  unfold Db.next_id. induction rs as [| x rs IH]; cbn [In fold_right]; [contradiction |].
  intros [-> | Hin]; [lia |]. specialize (IH Hin). lia.
Qed.

Lemma find_row_inserted rs n :
  Models.id n = Db.next_id rs -> Db.find_row (rs ++ [n]) (Models.id n) = Some n.
Proof.
  intros Hid. unfold Db.find_row.
  assert (Hnone : find (fun r => Models.id r =? Models.id n) rs = None).
  { destruct (find _ rs) as [r |] eqn:E; [| reflexivity].
    apply find_some in E as [Hin Heq]. apply Z.eqb_eq in Heq.
    pose proof (rows_below_next_id rs r Hin). lia. }
  induction rs as [| x rs IH]; cbn.
  - rewrite Z.eqb_refl. reflexivity.
  - cbn in Hnone. destruct (Models.id x =? Models.id n) eqn:E; [discriminate |].
    clear IH. revert Hnone. generalize rs as l.
    induction l as [| y l IHl]; cbn; intros Hn.
    + rewrite Z.eqb_refl. reflexivity.
    + destruct (Models.id y =? Models.id n); [discriminate | apply IHl; exact Hn].
Qed.

(** [create_note] returns the note it stores: with the title and content it
    was given, filed under its id in the backend active when the call ends. *)
Lemma create_note_stores (w : World) (e : Env) (t : string) (c : option string) :
  exists n,
    snd (create_note w e t c) = Ok n /\
    Models.title n = t /\
    Models.content n = or_empty c /\
    stored (fst (create_note w e t c)) (Models.id n) = Some n.
Proof.
  rewrite create_note_eq. unfold _should_use_fallback.
  assert (Hmem : forall s d, _fallback_enabled s = true ->
    stored {| svc := fst (mem_create s e t c); db := d |}
           (Models.id (snd (mem_create s e t c))) = Some (snd (mem_create s e t c))).
  { intros s d Hs. unfold stored, stored_in, _should_use_fallback. cbn.
    rewrite Hs. apply dict_get_set. }
  destruct (_fallback_enabled (svc w)) eqn:Hf.
  - eexists. split; [reflexivity |]. split; [reflexivity |]. split; [reflexivity |].
    apply (Hmem (svc w) (db w) Hf).
  - unfold try_create, Db.session_commit. destruct (commit_ok e); cbn [bind].
    + eexists. split; [reflexivity |]. split; [reflexivity |]. split; [reflexivity |].
      unfold stored, stored_in, _should_use_fallback. cbn [fst with_db svc db Db.rows].
      rewrite Hf. apply find_row_inserted. reflexivity.
    + eexists. split; [reflexivity |]. split; [reflexivity |]. split; [reflexivity |].
      apply (Hmem (enable_fallback (svc w)) _ eq_refl).
Qed.


















(** What a handler's call on the singleton does to the world, and returns. *)
Lemma on_service_world {A : Type} (a : App) (op : World -> World * result A) :
  world_of (fst (on_service a op)) = fst (op (world_of a)) /\
  snd (on_service a op) = snd (op (world_of a)).
Proof.
  unfold on_service, world_of.
  destruct (get_notes_service (globals a)) as [g inst].
  cbn [snd]. destruct (op _) as [[s d] r]. cbn. auto.
Qed.




End TitleFacts.

(** ** Concrete runs *)

Section Scenarios.

Import Services Routes Runs Worlds.

Lemma reads_surface_storage_error_witness :
  (_fallback_enabled (svc fresh) = false /\ read_ok (down 1) = false) /\
  snd (get_note fresh (down 1) 1) = Raise SQLAlchemyError /\
  snd (list_notes fresh (down 1) 1 10) = Raise SQLAlchemyError /\
  _fallback_enabled (svc (fst (get_note fresh (down 1) 1))) = false /\
  _fallback_enabled (svc (fst (list_notes fresh (down 1) 1 10))) = false.
Proof.
  split; [split; reflexivity |].
  apply (reads_surface_storage_error fresh (down 1) 1 1 10); reflexivity.
Defined.

Lemma durable_asked_again_after_read_error_witness :
  (_fallback_enabled (svc fresh) = false /\ read_ok (down 1) = false) /\
  raises fresh (down 1) (Get 1) = Some SQLAlchemyError /\
  _fallback_enabled (svc (after fresh (down 1) (Get 1))) = false /\
  Nat.lt (Db.requests (db (after fresh (down 1) (Get 1))))
         (Db.requests (db (after (after fresh (down 1) (Get 1)) (up 2) (Create "a" None)))).
Proof.
  split; [split; reflexivity |].
  apply (durable_asked_again_after_read_error fresh (down 1) 1 (up 2) (Create "a" None));
    reflexivity.
Defined.

(** C1 (the code departs from it). With three notes in the in-memory store,
    page 1 of size 1 is the note of id 1, the oldest: the in-memory branch
    slices the values in insertion order and sorts nothing, where the listing
    by descending id starts with the note of id 3. *)
Theorem mem_list_is_not_sorted :
  _fallback_enabled (svc three_in_memory) = true /\
  map Models.id (all_stored three_in_memory) = [1; 2; 3] /\
  (exists items,
     snd (list_notes three_in_memory (up 4) 1 1) = Ok (items, 3) /\
     map Models.id items = [1]) /\
  map Models.id (page_by_desc_id (all_stored three_in_memory) 1 1) = [3].
Proof.
  split; [reflexivity |]. split; [reflexivity |]. split; [| reflexivity].
  eexists. split; reflexivity.
Qed.

(** The spec's example holds on both backends: the second page of size 1 over
    ids 1, 2, 3 is the note of id 2 in either order. *)
Example mem_list_second_page :
  exists items,
    snd (list_notes three_in_memory (up 4) 2 1) = Ok (items, 3) /\
    map Models.id items = [2].
Proof. eexists. split; reflexivity. Qed.

Lemma durable_update_without_fields_keeps_updated_at_witness :
  (_fallback_enabled (svc one_in_table) = false /\
   read_ok (up 2) = true /\ commit_ok (up 2) = true /\
   Db.find_row (Db.rows (db one_in_table)) 1 = Some (Models.mkNote 1 "one" "text" 1 1)) /\
  snd (update_note one_in_table (up 2) 1 None None)
    = Ok (Some (Models.mkNote 1 "one" "text" 1 1)) /\
  stored (fst (update_note one_in_table (up 2) 1 None None)) 1
    = Some (Models.mkNote 1 "one" "text" 1 1).
Proof.
  split; [repeat split; reflexivity |].
  apply (durable_update_without_fields_keeps_updated_at one_in_table (up 2) 1
           (Models.mkNote 1 "one" "text" 1 1)); reflexivity.
Defined.

(** The same update in memory moves [updated_at] to the instant of the call. *)
Example mem_update_refreshes_updated_at :
  snd (update_note three_in_memory (up 9) 1 None None)
    = Ok (Some (Models.mkNote 1 "one" "" 1 9)).
Proof. reflexivity. Qed.


Example delete_present_and_absent :
  snd (delete_note one_in_table (up 2) 1) = Ok true /\
  snd (delete_note one_in_table (up 2) 7) = Ok false /\
  snd (get_note (fst (delete_note one_in_table (up 2) 1)) (up 3) 1) = Ok None /\
  snd (delete_note three_in_memory (up 4) 2) = Ok true /\
  snd (get_note (fst (delete_note three_in_memory (up 4) 2)) (down 5) 2) = Ok None.
Proof. repeat split; reflexivity. Qed.

Lemma volatile_ids_strictly_increase_witness :
  _fallback_enabled (svc (fst (create_note fresh (down 1) "one" None))) = true /\
  exists n1 n2,
    snd (create_note fresh (down 1) "one" None) = Ok n1 /\
    snd (create_note
           (run (fst (create_note fresh (down 1) "one" None)) [(up 2, Delete 1)])
           (up 3) "two" None) = Ok n2 /\
    Models.id n1 = _mem_next_id (svc fresh) /\
    _mem_next_id (svc (fst (create_note fresh (down 1) "one" None))) = Models.id n1 + 1 /\
    _mem_next_id (svc (fst (create_note fresh (down 1) "one" None)))
      <= _mem_next_id
           (svc (run (fst (create_note fresh (down 1) "one" None)) [(up 2, Delete 1)])) /\
    Models.id n2 =
      _mem_next_id
        (svc (run (fst (create_note fresh (down 1) "one" None)) [(up 2, Delete 1)])) /\
    Models.id n1 < Models.id n2.
Proof.
  split; [reflexivity |].
  apply (volatile_ids_strictly_increase fresh (down 1) "one" None
           [(up 2, Delete 1)] (up 3) "two" None).
  reflexivity.
Defined.

(** The id freed by a deletion is not given out again. *)
Example freed_id_is_not_reused :
  snd (create_note
         (run fresh [(down 1, Create "one" None); (up 2, Delete 1)])
         (up 3) "two" None)
    = Ok (Models.mkNote 2 "two" "" 3 3).
Proof. reflexivity. Qed.


(** Creating a note with title [" hello "] stores title ["hello"]. *)
Example post_hello :
  Str.strip " hello " = "hello"%string /\
  snd (NotesList_post booted (up 1) hello)
    = NoteJson 201 (Models.mkNote 1 "hello" "" 1 1) /\
  all_stored (world_of (fst (NotesList_post booted (up 1) hello)))
    = [Models.mkNote 1 "hello" "" 1 1].
Proof. repeat split; reflexivity. Qed.

End Scenarios.

(** ** Further properties of the service *)

Section FallbackProtocol.

Import Services Runs Worlds Walks.

Lemma surfaced_in_fallback (w : World) (calls : list (Env * Call)) :
  _fallback_enabled (svc w) = true ->
  Forall (fun r => r = None) (surfaced w calls).
Proof.
  revert w. induction calls as [| [e c] calls IH]; intros w Hf; cbn; [constructor |].
  destruct (fallback_serves_in_memory w e c Hf) as (H1 & _ & H3).
  constructor; [exact H3 | apply IH; exact H1].
Qed.

(** X1. Once the flag is set it stays set through any run of calls; the run
    sends nothing to the database, which is left exactly as it was, and none
    of its calls raises. *)
Theorem fallback_mode_is_closed (w : World) (calls : list (Env * Call)) :
  _fallback_enabled (svc w) = true ->
  _fallback_enabled (svc (run w calls)) = true /\
  db (run w calls) = db w /\
  Forall (fun r => r = None) (surfaced w calls).
Proof.
  intros Hf. destruct (fallback_is_permanent w calls Hf) as [H1 H2].
  split; [exact H1 |]. split; [exact H2 |].
  apply surfaced_in_fallback. exact Hf.
Qed.

Lemma fallback_mode_is_closed_witness :
  _fallback_enabled (svc three_in_memory) = true /\
  (_fallback_enabled
     (svc (run three_in_memory [(down 4, Get 1); (down 5, List 1 10)])) = true /\
   db (run three_in_memory [(down 4, Get 1); (down 5, List 1 10)]) = db three_in_memory /\
   Forall (fun r => r = None)
     (surfaced three_in_memory [(down 4, Get 1); (down 5, List 1 10)])).
Proof.
  split; [reflexivity |].
  apply (fallback_mode_is_closed three_in_memory [(down 4, Get 1); (down 5, List 1 10)]).
  reflexivity.
Defined.


(** X3. A call that switches the service to memory writes nothing to the
    table: when the flag is off before a call and set after it, the rows are
    those of before, and the call returns instead of raising. *)
Theorem fallback_transition_writes_nothing (w : World) (e : Env) (c : Call) :
  _fallback_enabled (svc w) = false ->
  _fallback_enabled (svc (after w e c)) = true ->
  Db.rows (db (after w e c)) = Db.rows (db w) /\ raises w e c = None.
Proof.
  intros Hf. destruct c as [t c | k | k t c | k | p ps]; unfold after, raises.
  - rewrite create_note_eq. unfold _should_use_fallback. rewrite Hf.
    unfold try_create, Db.session_commit.
    destruct (commit_ok e); cbn; [congruence | auto].
  - unfold get_note, _should_use_fallback, Db.session_get. rewrite Hf. cbn. congruence.
  - rewrite update_note_eq. unfold _should_use_fallback. rewrite Hf.
    unfold try_update, Db.session_get, Db.session_commit.
    destruct (read_ok e); [| cbn; auto].
    destruct (Db.find_row (Db.rows (db w)) k); [| cbn; congruence].
    destruct (commit_ok e); cbn; [congruence | auto].
  - rewrite delete_note_eq. unfold _should_use_fallback. rewrite Hf.
    unfold try_delete, Db.session_get, Db.session_commit.
    destruct (read_ok e); [| cbn; auto].
    destruct (Db.find_row (Db.rows (db w)) k); [| cbn; congruence].
    destruct (commit_ok e); cbn; [congruence | auto].
  - unfold list_notes, _should_use_fallback, Db.query_count, Db.query_page.
    rewrite Hf. destruct (read_ok e); cbn; congruence.
Qed.

Lemma fallback_transition_writes_nothing_witness :
  (_fallback_enabled (svc one_in_table) = false /\
   _fallback_enabled (svc (after one_in_table (down 2) (Delete 1))) = true) /\
  (Db.rows (db (after one_in_table (down 2) (Delete 1))) = Db.rows (db one_in_table) /\
   raises one_in_table (down 2) (Delete 1) = None).
Proof.
  split; [split; reflexivity |].
  apply (fallback_transition_writes_nothing one_in_table (down 2) (Delete 1));
    reflexivity.
Defined.

End FallbackProtocol.

(** ** Create, read, update, delete: round trips and frames *)

Section CrudFacts.

Import Services Runs Worlds Walks.

Lemma get_note_answer (w : World) (e : Env) (k : Z) :
  _fallback_enabled (svc w) = true \/ read_ok e = true ->
  snd (get_note w e k) = Ok (stored w k).
Proof.
  intros Hans. unfold get_note, stored, stored_in, _should_use_fallback, Db.session_get.
  destruct (_fallback_enabled (svc w)); cbn; [reflexivity |].
  destruct Hans as [Habs | ->]; [discriminate | reflexivity].
Qed.

Lemma dict_get_set_other d k v j :
  j <> k -> Dict.get (Dict.set d k v) j = Dict.get d j.
Proof.
  intros Hj. induction d as [| [k' v'] d IH]; cbn.
  - destruct (Z.eqb_spec k j); [congruence | reflexivity].
  - destruct (Z.eqb_spec k' k) as [-> | Hk]; cbn.
    + destruct (Z.eqb_spec k j); [congruence | reflexivity].
    + destruct (k' =? j); [reflexivity | exact IH].
Qed.

Lemma dict_get_remove_other d k j :
  j <> k -> Dict.get (Dict.remove d k) j = Dict.get d j.
Proof.
  intros Hj. unfold Dict.remove. induction d as [| [k' v'] d IH]; cbn; [reflexivity |].
  destruct (Z.eqb_spec k' k) as [-> | Hk]; cbn.
  - destruct (Z.eqb_spec k j); [congruence | exact IH].
  - destruct (k' =? j); [reflexivity | exact IH].
Qed.

Lemma find_row_replace_other rs n j :
  Models.id n <> j -> Db.find_row (Db.replace_row rs n) j = Db.find_row rs j.
Proof.
  intros Hj. unfold Db.find_row, Db.replace_row.
  induction rs as [| r rs IH]; cbn; [reflexivity |].
  destruct (Z.eqb_spec (Models.id r) (Models.id n)) as [E | N].
  - destruct (Z.eqb_spec (Models.id n) j); [contradiction |].
    destruct (Z.eqb_spec (Models.id r) j); [congruence | exact IH].
  - destruct (Models.id r =? j); [reflexivity | exact IH].
Qed.

Lemma find_row_delete_other rs k j :
  j <> k -> Db.find_row (Db.delete_row rs k) j = Db.find_row rs j.
Proof.
  intros Hj. unfold Db.find_row, Db.delete_row.
  induction rs as [| r rs IH]; cbn; [reflexivity |].
  destruct (Z.eqb_spec (Models.id r) k) as [E | N]; cbn.
  - destruct (Z.eqb_spec (Models.id r) j); [congruence | exact IH].
  - destruct (Models.id r =? j); [reflexivity | exact IH].
Qed.

Lemma find_row_app_found rs n j m :
  Db.find_row rs j = Some m -> Db.find_row (rs ++ [n]) j = Some m.
Proof.
  unfold Db.find_row. induction rs as [| r rs IH]; cbn; [discriminate |].
  destruct (Models.id r =? j); [auto | exact IH].
Qed.

(** The other keys of the store under the in-memory branches. *)
Lemma mem_update_other s e k t c j :
  j <> k ->
  Dict.get (_mem_store (fst (mem_update s e k t c))) j = Dict.get (_mem_store s) j.
Proof.
  intros Hj. unfold mem_update.
  destruct (Dict.get (_mem_store s) k); cbn [fst _mem_store]; [| reflexivity].
  apply dict_get_set_other. exact Hj.
Qed.

Lemma mem_delete_other s k j :
  j <> k ->
  Dict.get (_mem_store (fst (mem_delete s k))) j = Dict.get (_mem_store s) j.
Proof. intros Hj. cbn. apply dict_get_remove_other. exact Hj. Qed.

(** The other rows of the table under the [try] blocks. *)
Lemma try_update_other d e k t c j :
  j <> k ->
  Db.find_row (Db.rows (fst (try_update d e k t c))) j = Db.find_row (Db.rows d) j.
Proof.
  intros Hj. unfold try_update, Db.session_get, Db.session_commit.
  destruct (read_ok e); [| reflexivity].
  destruct (Db.find_row (Db.rows d) k) as [n |] eqn:Hrow; [| reflexivity].
  destruct (commit_ok e); cbn [fst Db.rows Db.asked]; [| reflexivity].
  apply find_row_replace_other. cbn. rewrite (find_row_id _ _ _ Hrow). congruence.
Qed.

Lemma try_delete_other d e k j :
  j <> k ->
  Db.find_row (Db.rows (fst (try_delete d e k))) j = Db.find_row (Db.rows d) j.
Proof.
  intros Hj. unfold try_delete, Db.session_get, Db.session_commit.
  destruct (read_ok e); [| reflexivity].
  destruct (Db.find_row (Db.rows d) k) as [n |] eqn:Hrow; [| reflexivity].
  destruct (commit_ok e); cbn [fst Db.rows Db.asked]; [| reflexivity].
  apply find_row_delete_other. rewrite (find_row_id _ _ _ Hrow). exact Hj.
Qed.

(** X4. A note just created can be read back: whenever the backend answers
    the read, [get_note] on the id that [create_note] returned gives the very
    note, which carries the title given and the content given (or the empty
    string). *)
Theorem create_then_get (w : World) (e : Env) (t : string) (c : option string)
    (e' : Env) :
  _fallback_enabled (svc (fst (create_note w e t c))) = true \/ read_ok e' = true ->
  exists n,
    snd (create_note w e t c) = Ok n /\
    Models.title n = t /\
    Models.content n = or_empty c /\
    snd (get_note (fst (create_note w e t c)) e' (Models.id n)) = Ok (Some n).
Proof.
  intros Hans.
  destruct (create_note_stores w e t c) as (n & Hr & Ht & Hc & Hst).
  exists n. repeat split; try assumption.
  rewrite get_note_answer by exact Hans. rewrite Hst. reflexivity.
Qed.

Lemma create_then_get_witness :
  (_fallback_enabled (svc (fst (create_note one_in_table (up 2) "two" None))) = true
   \/ read_ok (up 3) = true) /\
  exists n,
    snd (create_note one_in_table (up 2) "two" None) = Ok n /\
    Models.title n = "two"%string /\
    Models.content n = or_empty None /\
    snd (get_note (fst (create_note one_in_table (up 2) "two" None)) (up 3) (Models.id n))
      = Ok (Some n).
Proof.
  split; [right; reflexivity |].
  apply (create_then_get one_in_table (up 2) "two" None (up 3)).
  right. reflexivity.
Defined.

(** What a successful update returns, in memory and on the table. *)
Lemma mem_update_some s e k t c n' :
  snd (mem_update s e k t c) = Some n' ->
  exists old,
    Dict.get (_mem_store s) k = Some old /\
    n' = Models.mkNote (Models.id old)
           (match t with Some x => x | None => Models.title old end)
           (match c with Some x => x | None => Models.content old end)
           (Models.created_at old) (now e) /\
    Dict.get (_mem_store (fst (mem_update s e k t c))) k = Some n'.
Proof.
  unfold mem_update.
  destruct (Dict.get (_mem_store s) k) as [old |] eqn:Hget; cbn [fst snd]; [| discriminate].
  intros [= <-]. exists old. split; [reflexivity |].
  split; [destruct t, c; reflexivity |].
  cbn [_mem_store]. apply dict_get_set.
Qed.

Lemma mem_update_flag s e k t c :
  _fallback_enabled (fst (mem_update s e k t c)) = _fallback_enabled s.
Proof.
  unfold mem_update. destruct (Dict.get (_mem_store s) k); reflexivity.
Qed.


Lemma try_update_some d e k t c d' n' :
  try_update d e k t c = (d', Ok (Some n')) ->
  exists old,
    Db.find_row (Db.rows d) k = Some old /\
    n' = Db.updated old e t c /\
    Db.find_row (Db.rows d') k = Some n'.
Proof.
  unfold try_update, Db.session_get, Db.session_commit.
  destruct (read_ok e); [| discriminate].
  destruct (Db.find_row (Db.rows d) k) as [old |] eqn:Hrow; [| discriminate].
  destruct (commit_ok e); cbn [bind]; [| discriminate].
  intros [= <- <-]. exists old. split; [reflexivity |]. split; [reflexivity |].
  cbn [Db.rows Db.asked].
  assert (Hid : Models.id (Db.updated old e t c) = k)
    by (cbn; exact (find_row_id _ _ _ Hrow)).
  rewrite <- Hid. apply (find_row_replace_row _ _ old). rewrite Hid. exact Hrow.
Qed.

Lemma update_note_some
    (w : World) (e : Env) (k : Z) (t c : option string) (n' : Models.Note) :
  snd (update_note w e k t c) = Ok (Some n') ->
  exists old,
    stored_in (_fallback_enabled (svc (fst (update_note w e k t c)))) w k = Some old /\
    Models.id n' = Models.id old /\
    Models.created_at n' = Models.created_at old /\
    Models.title n' = match t with Some x => x | None => Models.title old end /\
    Models.content n' = match c with Some x => x | None => Models.content old end /\
    stored (fst (update_note w e k t c)) k = Some n'.
Proof.
  rewrite update_note_eq. unfold _should_use_fallback.
  assert (Hmem : forall s d,
    _fallback_enabled s = true -> _mem_store s = _mem_store (svc w) ->
    snd (mem_update s e k t c) = Some n' ->
    exists old,
      stored_in (_fallback_enabled (fst (mem_update s e k t c))) w k = Some old /\
      Models.id n' = Models.id old /\
      Models.created_at n' = Models.created_at old /\
      Models.title n' = match t with Some x => x | None => Models.title old end /\
      Models.content n' = match c with Some x => x | None => Models.content old end /\
      stored {| svc := fst (mem_update s e k t c); db := d |} k = Some n').
  { intros s d Hs Hstore Hr.
    destruct (mem_update_some s e k t c n' Hr) as (old & Hget & -> & Hnew).
    assert (Hflag : _fallback_enabled (fst (mem_update s e k t c)) = true).
    { unfold mem_update. rewrite Hget. exact Hs. }
    exists old. rewrite Hflag. unfold stored, stored_in, _should_use_fallback.
    cbn [svc]. rewrite Hflag, <- Hstore. repeat split; try reflexivity; assumption. }
  destruct (_fallback_enabled (svc w)) eqn:Hf.
  - cbn [fst snd with_svc svc]. intros [= Hr].
    destruct (Hmem (svc w) (db w) Hf eq_refl Hr) as (old & H). exists old. exact H.
  - destruct (try_update (db w) e k t c) as [d [[m |] | []]] eqn:Htry;
      cbn [fst snd with_db svc]; try discriminate.
    + intros [= ->].
      destruct (try_update_some _ _ _ _ _ _ _ Htry) as (old & Hrow & -> & Hnew).
      exists old. rewrite Hf. unfold stored, stored_in, _should_use_fallback.
      cbn [svc db with_db]. rewrite Hf.
      split; [exact Hrow |]. repeat split; try assumption; destruct t, c; reflexivity.
    + intros [= Hr].
      destruct (Hmem (enable_fallback (svc w)) d eq_refl eq_refl Hr) as (old & H).
      exists old. exact H.
Qed.

(** X5. A successful [update_note] changes the fields it is given and no
    other: the note returned has the id and [created_at] of the stored note,
    the title and the content given or else the stored ones, and it is the
    note now stored under the id. *)
Theorem update_applies_only_given_fields
    (w : World) (e : Env) (k : Z) (t c : option string) (n' : Models.Note) :
  snd (update_note w e k t c) = Ok (Some n') ->
  exists old,
    stored_in (_fallback_enabled (svc (fst (update_note w e k t c)))) w k = Some old /\
    Models.id n' = Models.id old /\
    Models.created_at n' = Models.created_at old /\
    Models.title n' = match t with Some x => x | None => Models.title old end /\
    Models.content n' = match c with Some x => x | None => Models.content old end /\
    stored (fst (update_note w e k t c)) k = Some n'.
Proof.
  intros Hr. destruct (update_note_some w e k t c n' Hr) as (old & H).
  exists old. exact H.
Qed.

Lemma update_applies_only_given_fields_witness :
  snd (update_note one_in_table (up 2) 1 (Some "uno"%string) None)
    = Ok (Some (Models.mkNote 1 "uno" "text" 1 2)) /\
  exists old,
    stored_in
      (_fallback_enabled
         (svc (fst (update_note one_in_table (up 2) 1 (Some "uno"%string) None))))
      one_in_table 1 = Some old /\
    Models.id (Models.mkNote 1 "uno" "text" 1 2) = Models.id old /\
    Models.created_at (Models.mkNote 1 "uno" "text" 1 2) = Models.created_at old /\
    Models.title (Models.mkNote 1 "uno" "text" 1 2) = "uno"%string /\
    Models.content (Models.mkNote 1 "uno" "text" 1 2) = Models.content old /\
    stored (fst (update_note one_in_table (up 2) 1 (Some "uno"%string) None)) 1
      = Some (Models.mkNote 1 "uno" "text" 1 2).
Proof.
  split; [reflexivity |].
  apply (update_applies_only_given_fields one_in_table (up 2) 1 (Some "uno"%string) None
           (Models.mkNote 1 "uno" "text" 1 2)).
  reflexivity.
Defined.



(** X7. [update_note] and [delete_note] touch one id: under every other id
    both backends hold after the call what they held before. *)
Theorem update_and_delete_touch_one_id
    (w : World) (e : Env) (k j : Z) (volatile : bool) :
  j <> k ->
  (forall t c, stored_in volatile (after w e (Update k t c)) j = stored_in volatile w j) /\
  stored_in volatile (after w e (Delete k)) j = stored_in volatile w j.
Proof.
  intros Hj. split; [intros t c |]; unfold after.
  - rewrite update_note_eq.
    pose proof (try_update_other (db w) e k t c j Hj) as Hd.
    pose proof (mem_update_other (svc w) e k t c j Hj) as Hs.
    pose proof (mem_update_other (enable_fallback (svc w)) e k t c j Hj) as Hs'.
    destruct (_should_use_fallback (svc w)).
    + destruct volatile; unfold stored_in; cbn [fst svc db with_svc]; auto.
    + destruct (try_update (db w) e k t c) as [d [r | []]]; cbn [fst] in Hd;
        destruct volatile; unfold stored_in; cbn [fst svc db with_db]; auto.
  - rewrite delete_note_eq.
    pose proof (try_delete_other (db w) e k j Hj) as Hd.
    pose proof (mem_delete_other (svc w) k j Hj) as Hs.
    pose proof (mem_delete_other (enable_fallback (svc w)) k j Hj) as Hs'.
    destruct (_should_use_fallback (svc w)).
    + destruct volatile; unfold stored_in; cbn [fst svc db with_svc]; auto.
    + destruct (try_delete (db w) e k) as [d [r | []]]; cbn [fst] in Hd;
        destruct volatile; unfold stored_in; cbn [fst svc db with_db]; auto.
Qed.

Lemma update_and_delete_touch_one_id_witness :
  3 <> 2 /\
  ((forall t c,
      stored_in true (after three_in_memory (up 4) (Update 2 t c)) 3
        = stored_in true three_in_memory 3) /\
   stored_in true (after three_in_memory (up 4) (Delete 2)) 3
     = stored_in true three_in_memory 3).
Proof.
  split; [lia |].
  apply (update_and_delete_touch_one_id three_in_memory (up 4) 2 3 true). lia.
Defined.

(** X8. An update that changes the title or the content of a note sets its
    [updated_at] to the instant of the call, on either backend. *)
Theorem changing_update_refreshes_updated_at
    (w : World) (e : Env) (k : Z) (t c : option string) (n' old : Models.Note) :
  snd (update_note w e k t c) = Ok (Some n') ->
  stored_in (_fallback_enabled (svc (fst (update_note w e k t c)))) w k = Some old ->
  Models.title n' <> Models.title old \/ Models.content n' <> Models.content old ->
  Models.updated_at n' = now e.
Proof.
  rewrite update_note_eq. unfold _should_use_fallback.
  assert (Hmem : forall s, snd (mem_update s e k t c) = Some n' ->
                           Models.updated_at n' = now e).
  { intros s Hr. destruct (mem_update_some s e k t c n' Hr) as (o & _ & -> & _).
    reflexivity. }
  destruct (_fallback_enabled (svc w)) eqn:Hf.
  - cbn [fst snd]. intros [= Hr] _ _. exact (Hmem _ Hr).
  - destruct (try_update (db w) e k t c) as [d [[m |] | []]] eqn:Htry;
      cbn [fst snd with_db svc]; try discriminate.
    + intros [= ->]. rewrite Hf. unfold stored_in. intros Hold Hchg.
      destruct (try_update_some _ _ _ _ _ _ _ Htry) as (o & Hrow & -> & _).
      assert (o = old) by congruence. subst o.
      unfold Db.updated in *. cbn in Hchg |- *.
      destruct (String.eqb_spec
                  (match t with Some x => x | None => Models.title old end)
                  (Models.title old)) as [Et | Nt]; cbn; [| reflexivity].
      destruct (String.eqb_spec
                  (match c with Some x => x | None => Models.content old end)
                  (Models.content old)) as [Ec | Nc]; cbn; [| reflexivity].
      destruct Hchg as [H | H]; contradiction.
    + intros [= Hr] _ _. exact (Hmem _ Hr).
Qed.

Lemma changing_update_refreshes_updated_at_witness :
  (snd (update_note one_in_table (up 2) 1 (Some "uno"%string) None)
     = Ok (Some (Models.mkNote 1 "uno" "text" 1 2)) /\
   stored_in
     (_fallback_enabled
        (svc (fst (update_note one_in_table (up 2) 1 (Some "uno"%string) None))))
     one_in_table 1 = Some (Models.mkNote 1 "one" "text" 1 1) /\
   (Models.title (Models.mkNote 1 "uno" "text" 1 2)
      <> Models.title (Models.mkNote 1 "one" "text" 1 1)
    \/ Models.content (Models.mkNote 1 "uno" "text" 1 2)
         <> Models.content (Models.mkNote 1 "one" "text" 1 1))) /\
  Models.updated_at (Models.mkNote 1 "uno" "text" 1 2) = now (up 2).
Proof.
  assert (H : Models.title (Models.mkNote 1 "uno" "text" 1 2)
                <> Models.title (Models.mkNote 1 "one" "text" 1 1))
    by (cbn; discriminate).
  split; [split; [reflexivity | split; [reflexivity | left; exact H]] |].
  apply (changing_update_refreshes_updated_at one_in_table (up 2) 1
           (Some "uno"%string) None
           (Models.mkNote 1 "uno" "text" 1 2) (Models.mkNote 1 "one" "text" 1 1));
    [reflexivity | reflexivity | left; exact H].
Defined.

End CrudFacts.

(** ** Invariants of the two backends *)

Section BackendInvariants.

Import Services Runs Worlds Walks.

(** While the flag is off, a call that leaves it off does not touch the
    fields of the service. *)
Lemma durable_calls_keep_service (w : World) (e : Env) (c : Call) :
  _fallback_enabled (svc w) = false ->
  _fallback_enabled (svc (after w e c)) = false ->
  svc (after w e c) = svc w.
Proof.
  intros Hf. destruct c as [t c | k | k t c | k | p ps]; unfold after.
  - rewrite create_note_eq. unfold _should_use_fallback. rewrite Hf.
    destruct (try_create_cases (db w) e t c) as [(d & r & ->) | (d & ->)];
      cbn; [reflexivity | discriminate].
  - unfold get_note, _should_use_fallback. rewrite Hf.
    destruct (Db.session_get (db w) e k). reflexivity.
  - rewrite update_note_eq. unfold _should_use_fallback. rewrite Hf.
    destruct (try_update_cases (db w) e k t c) as [(d & r & ->) | (d & ->)];
      cbn [fst svc with_db]; [reflexivity |].
    rewrite mem_update_flag. discriminate.
  - rewrite delete_note_eq. unfold _should_use_fallback. rewrite Hf.
    destruct (try_delete_cases (db w) e k) as [(d & r & ->) | (d & ->)];
      cbn; [reflexivity | discriminate].
  - unfold list_notes, _should_use_fallback. rewrite Hf.
    destruct (Db.query_count (db w) e) as [d1 [n | ex]]; [| reflexivity].
    destruct (Db.query_page d1 e ((p - 1) * ps) ps). reflexivity.
Qed.

Lemma untouched_after (w : World) (e : Env) (c : Call) :
  untouched (svc w) -> untouched (svc (after w e c)).
Proof.
  intros Hu Hf'.
  destruct (_fallback_enabled (svc w)) eqn:Hf.
  - destruct (fallback_serves_in_memory w e c Hf) as (H & _). congruence.
  - rewrite (durable_calls_keep_service w e c Hf Hf'). apply Hu. exact Hf.
Qed.

Lemma untouched_run (w : World) (calls : list (Env * Call)) :
  untouched (svc w) -> untouched (svc (run w calls)).
Proof.
  revert w. induction calls as [| [e c] calls IH]; intros w Hu; cbn; [exact Hu |].
  apply IH. apply untouched_after. exact Hu.
Qed.

(** X9. The in-memory ids start at 1 whatever the table holds: on a service
    that has served any calls without falling back, the [create_note] whose
    commit fails returns the note of id 1, made of the arguments of the
    call. *)
Theorem first_fallback_note_gets_id_1
    (db0 : Db.t) (calls : list (Env * Call)) (e : Env) (t : string) (c : option string) :
  _fallback_enabled (svc (run {| svc := __init__; db := db0 |} calls)) = false ->
  commit_ok e = false ->
  snd (create_note (run {| svc := __init__; db := db0 |} calls) e t c)
    = Ok (Models.mkNote 1 t (or_empty c) (now e) (now e)).
Proof.
  intros Hf Hc.
  set (w := run {| svc := __init__; db := db0 |} calls) in *.
  assert (Hu : untouched (svc w)).
  { apply untouched_run. intros _. split; reflexivity. }
  destruct (Hu Hf) as [_ Hnext].
  rewrite create_note_eq. unfold _should_use_fallback. rewrite Hf.
  unfold try_create, Db.session_commit. rewrite Hc. cbn. rewrite Hnext. reflexivity.
Qed.

Lemma first_fallback_note_gets_id_1_witness :
  (_fallback_enabled
     (svc (run {| svc := __init__; db := {| Db.rows := []; Db.requests := 0 |} |}
               [(up 1, Create "one" None)])) = false /\
   commit_ok (down 2) = false) /\
  snd (create_note
         (run {| svc := __init__; db := {| Db.rows := []; Db.requests := 0 |} |}
              [(up 1, Create "one" None)])
         (down 2) "two" None)
    = Ok (Models.mkNote 1 "two" (or_empty None) (now (down 2)) (now (down 2))).
Proof.
  split; [split; reflexivity |].
  apply (first_fallback_note_gets_id_1 {| Db.rows := []; Db.requests := 0 |}
           [(up 1, Create "one" None)] (down 2) "two" None); reflexivity.
Defined.

(** X10. [create_note] overwrites nothing: on a service that has served any
    calls since its construction, a note held by either backend before the
    call is held under the same id after it. *)
Theorem create_never_overwrites
    (db0 : Db.t) (calls : list (Env * Call)) (e : Env) (t : string) (c : option string)
    (volatile : bool) (j : Z) (m : Models.Note) :
  stored_in volatile (run {| svc := __init__; db := db0 |} calls) j = Some m ->
  stored_in volatile
    (fst (create_note (run {| svc := __init__; db := db0 |} calls) e t c)) j = Some m.
Proof.
  set (w := run {| svc := __init__; db := db0 |} calls).
  assert (Hk : keys_below_counter (svc w)).
  { apply keys_below_counter_run. constructor. }
  assert (Hmem : forall s, _mem_store s = _mem_store (svc w) ->
            _mem_next_id s = _mem_next_id (svc w) ->
            Dict.get (_mem_store (svc w)) j = Some m ->
            Dict.get (_mem_store (fst (mem_create s e t c))) j = Some m).
  { intros s Hs Hn Hget. cbn. rewrite Hs, Hn.
    rewrite dict_get_set_other; [exact Hget |].
    apply dict_get_in in Hget. unfold keys_below_counter in Hk.
    rewrite Forall_forall in Hk. specialize (Hk _ Hget). cbn in Hk. lia. }
  rewrite create_note_eq. unfold stored_in.
  destruct (_should_use_fallback (svc w)).
  - destruct volatile; cbn [fst svc db with_svc]; [apply Hmem; reflexivity | auto].
  - unfold try_create, Db.session_commit.
    destruct (commit_ok e); cbn [bind fst svc db with_db Db.rows Db.asked];
      destruct volatile; try (intros H; exact H).
    + apply find_row_app_found.
    + apply Hmem; reflexivity.
Qed.

Lemma create_never_overwrites_witness :
  stored_in false
    (run {| svc := __init__; db := {| Db.rows := []; Db.requests := 0 |} |}
         [(up 1, Create "one" None)]) 1
    = Some (Models.mkNote 1 "one" "" 1 1) /\
  stored_in false
    (fst (create_note
            (run {| svc := __init__; db := {| Db.rows := []; Db.requests := 0 |} |}
                 [(up 1, Create "one" None)])
            (up 2) "two" None)) 1
    = Some (Models.mkNote 1 "one" "" 1 1).
Proof.
  split; [reflexivity |].
  apply (create_never_overwrites {| Db.rows := []; Db.requests := 0 |}
           [(up 1, Create "one" None)] (up 2) "two" None false 1
           (Models.mkNote 1 "one" "" 1 1)).
  reflexivity.
Defined.

(** The ids of the rows under the statements of the session. *)
Lemma next_id_not_in rs : ~ In (Db.next_id rs) (map Models.id rs).
Proof.
  intros Hin. apply in_map_iff in Hin as (r & Hid & Hr).
  pose proof (rows_below_next_id rs r Hr). lia.
Qed.

Lemma nodup_snoc {A : Type} (l : list A) (x : A) :
  NoDup l -> ~ In x l -> NoDup (l ++ [x]).
Proof.
  intros Hl Hx. induction Hl as [| y l Hy Hl IH]; cbn.
  - constructor; [intros [] | constructor].
  - constructor.
    + rewrite in_app_iff. intros [H | [H | []]]; [contradiction |].
      apply Hx. left. symmetry. exact H.
    + apply IH. intros H. apply Hx. right. exact H.
Qed.

Lemma replace_row_ids rs n :
  map Models.id (Db.replace_row rs n) = map Models.id rs.
Proof.
  unfold Db.replace_row. induction rs as [| r rs IH]; cbn; [reflexivity |].
  rewrite IH. destruct (Z.eqb_spec (Models.id r) (Models.id n)); congruence.
Qed.

Lemma nodup_map_filter {A B : Type} (g : A -> B) (f : A -> bool) (l : list A) :
  NoDup (map g l) -> NoDup (map g (filter f l)).
Proof.
  induction l as [| x l IH]; cbn; [auto |].
  intros H. inversion H as [| ? ? Hx Hl]; subst.
  destruct (f x); cbn; [| auto].
  constructor; [| auto].
  intros Hin. apply Hx. apply in_map_iff in Hin as (y & Hy & Hf).
  apply filter_In in Hf as [Hf _]. apply in_map_iff. exists y. auto.
Qed.

Lemma dict_set_keys d k v :
  map fst (Dict.set d k v) =
  match Dict.get d k with
  | Some _ => map fst d
  | None => (map fst d ++ [k])%list
  end.
Proof.
  induction d as [| [k' v'] d IH]; cbn; [reflexivity |].
  destruct (Z.eqb_spec k' k) as [-> | N]; cbn; [reflexivity |].
  rewrite IH. destruct (Dict.get d k); reflexivity.
Qed.

Lemma dict_get_none_not_key d k : Dict.get d k = None -> ~ In k (map fst d).
Proof.
  induction d as [| [k' v'] d IH]; cbn; [auto |].
  destruct (Z.eqb_spec k' k) as [-> | N]; [discriminate |].
  intros H [E | Hin]; [contradiction | exact (IH H Hin)].
Qed.

(** The in-memory branches keep the keys distinct and every record under its
    own id. *)
Lemma dict_set_filed d k v :
  filed d -> Models.id v = k -> filed (Dict.set d k v).
Proof.
  intros [Hnd Hid] Hv. split.
  - rewrite dict_set_keys. destruct (Dict.get d k) eqn:Hget; [exact Hnd |].
    apply nodup_snoc; [exact Hnd | apply dict_get_none_not_key; exact Hget].
  - apply dict_set_forall; [exact Hid | exact Hv].
Qed.

Lemma dict_remove_filed d k : filed d -> filed (Dict.remove d k).
Proof.
  intros [Hnd Hid]. unfold Dict.remove. split.
  - apply nodup_map_filter. exact Hnd.
  - apply Forall_forall. intros x Hx. apply filter_In in Hx as [Hx _].
    rewrite Forall_forall in Hid. auto.
Qed.

Lemma mem_create_filed s e t c :
  filed (_mem_store s) -> filed (_mem_store (fst (mem_create s e t c))).
Proof. intros H. cbn. apply dict_set_filed; [exact H | reflexivity]. Qed.

Lemma mem_update_filed s e k t c :
  filed (_mem_store s) -> filed (_mem_store (fst (mem_update s e k t c))).
Proof.
  intros H. unfold mem_update.
  destruct (Dict.get (_mem_store s) k) as [old |] eqn:Hget; [| exact H].
  cbn [fst _mem_store]. apply dict_set_filed; [exact H |].
  destruct H as [_ Hid]. rewrite Forall_forall in Hid.
  specialize (Hid _ (dict_get_in _ _ _ Hget)). cbn in Hid.
  destruct t, c; exact Hid.
Qed.

Lemma mem_delete_filed s k :
  filed (_mem_store s) -> filed (_mem_store (fst (mem_delete s k))).
Proof. intros H. cbn. apply dict_remove_filed. exact H. Qed.

Lemma try_create_ids d e t c :
  NoDup (map Models.id (Db.rows d)) ->
  NoDup (map Models.id (Db.rows (fst (try_create d e t c)))).
Proof.
  intros H. unfold try_create, Db.session_commit.
  destruct (commit_ok e); cbn [fst Db.rows Db.asked]; [| exact H].
  rewrite map_app. apply nodup_snoc; [exact H | apply next_id_not_in].
Qed.

Lemma try_update_ids d e k t c :
  NoDup (map Models.id (Db.rows d)) ->
  NoDup (map Models.id (Db.rows (fst (try_update d e k t c)))).
Proof.
  intros H. unfold try_update, Db.session_get, Db.session_commit.
  destruct (read_ok e); [| exact H].
  destruct (Db.find_row (Db.rows d) k); [| exact H].
  destruct (commit_ok e); cbn [fst Db.rows Db.asked]; [| exact H].
  rewrite replace_row_ids. exact H.
Qed.

Lemma try_delete_ids d e k :
  NoDup (map Models.id (Db.rows d)) ->
  NoDup (map Models.id (Db.rows (fst (try_delete d e k)))).
Proof.
  intros H. unfold try_delete, Db.session_get, Db.session_commit.
  destruct (read_ok e); [| exact H].
  destruct (Db.find_row (Db.rows d) k); [| exact H].
  destruct (commit_ok e); cbn [fst Db.rows Db.asked]; [| exact H].
  apply nodup_map_filter. exact H.
Qed.

Lemma distinct_ids_after (w : World) (e : Env) (c : Call) :
  distinct_ids w -> distinct_ids (after w e c).
Proof.
  unfold distinct_ids. intros (Hd & Hs).
  change (filed (_mem_store (svc w))) in Hs.
  change (NoDup (map Models.id (Db.rows (db (after w e c)))) /\
          filed (_mem_store (svc (after w e c)))).
  destruct c as [t c | k | k t c | k | p ps]; unfold after.
  - rewrite create_note_eq.
    pose proof (try_create_ids (db w) e t c Hd) as Hd'.
    destruct (_should_use_fallback (svc w));
      [split; [exact Hd | apply mem_create_filed; exact Hs] |].
    destruct (try_create (db w) e t c) as [d [r | []]]; cbn [fst] in Hd';
      split; try assumption.
    apply mem_create_filed; exact Hs.
  - unfold get_note, Db.session_get.
    destruct (_should_use_fallback (svc w)); split; assumption.
  - rewrite update_note_eq.
    pose proof (try_update_ids (db w) e k t c Hd) as Hd'.
    destruct (_should_use_fallback (svc w));
      [split; [exact Hd | apply mem_update_filed; exact Hs] |].
    destruct (try_update (db w) e k t c) as [d [r | []]]; cbn [fst] in Hd';
      split; try assumption.
    apply mem_update_filed; exact Hs.
  - rewrite delete_note_eq.
    pose proof (try_delete_ids (db w) e k Hd) as Hd'.
    destruct (_should_use_fallback (svc w));
      [split; [exact Hd | apply mem_delete_filed; exact Hs] |].
    destruct (try_delete (db w) e k) as [d [r | []]]; cbn [fst] in Hd';
      split; try assumption.
    apply mem_delete_filed; exact Hs.
  - unfold list_notes, Db.query_count, Db.query_page.
    destruct (_should_use_fallback (svc w)); [split; assumption |].
    destruct (read_ok e); split; assumption.
Qed.

(** X11. Ids are unique within each backend: starting from a new service over
    a table of distinct ids, after any calls the rows of the table have
    pairwise distinct ids, the in-memory store has pairwise distinct keys,
    and every in-memory record is filed under its own id. *)
Theorem ids_stay_distinct (db0 : Db.t) (calls : list (Env * Call)) :
  NoDup (map Models.id (Db.rows db0)) ->
  distinct_ids (run {| svc := __init__; db := db0 |} calls).
Proof.
  intros H0.
  assert (Hinit : distinct_ids {| svc := __init__; db := db0 |}).
  { split; [exact H0 |]. split; constructor. }
  revert Hinit. generalize {| svc := __init__; db := db0 |}.
  induction calls as [| [e c] calls IH]; intros w Hw; cbn; [exact Hw |].
  apply IH. apply distinct_ids_after. exact Hw.
Qed.

Lemma ids_stay_distinct_witness :
  NoDup (map Models.id (Db.rows {| Db.rows := []; Db.requests := 0 |})) /\
  distinct_ids
    (run {| svc := __init__; db := {| Db.rows := []; Db.requests := 0 |} |}
         [(up 1, Create "one" None); (down 2, Create "two" None);
          (up 3, Update 1 (Some "uno"%string) None)]).
Proof.
  assert (H : NoDup (map Models.id (Db.rows {| Db.rows := []; Db.requests := 0 |})))
    by constructor.
  split; [exact H |].
  exact (ids_stay_distinct {| Db.rows := []; Db.requests := 0 |}
           [(up 1, Create "one" None); (down 2, Create "two" None);
            (up 3, Update 1 (Some "uno"%string) None)] H).
Defined.

(** Timestamps. *)
Lemma timely_later t t' n : timely t n -> t <= t' -> timely t' n.
Proof. unfold timely. intros [H1 H2] Ht. lia. Qed.

Lemma all_timely_later t t' w : all_timely t w -> t <= t' -> all_timely t' w.
Proof.
  intros [Hd Hs] Ht. split; (eapply Forall_impl; [| eassumption]);
    intros n Hn; exact (timely_later _ _ _ Hn Ht).
Qed.

Lemma dict_set_values (P : Models.Note -> Prop) d k v :
  Forall P (Dict.values d) -> P v -> Forall P (Dict.values (Dict.set d k v)).
Proof.
  unfold Dict.values. rewrite !Forall_map. intros Hd Hv.
  apply dict_set_forall; assumption.
Qed.

Lemma dict_remove_values (P : Models.Note -> Prop) d k :
  Forall P (Dict.values d) -> Forall P (Dict.values (Dict.remove d k)).
Proof.
  unfold Dict.values, Dict.remove. rewrite !Forall_map, !Forall_forall.
  intros Hd x Hx. apply filter_In in Hx as [Hx _]. auto.
Qed.

Lemma dict_get_values (P : Models.Note -> Prop) d k n :
  Forall P (Dict.values d) -> Dict.get d k = Some n -> P n.
Proof.
  unfold Dict.values. rewrite Forall_map, Forall_forall. intros Hd Hget.
  exact (Hd _ (dict_get_in _ _ _ Hget)).
Qed.

Lemma mem_update_timely s e k t c :
  Forall (timely (now e)) (Dict.values (_mem_store s)) ->
  Forall (timely (now e)) (Dict.values (_mem_store (fst (mem_update s e k t c)))).
Proof.
  intros Hs. unfold mem_update.
  destruct (Dict.get (_mem_store s) k) as [old |] eqn:Hget; [| exact Hs].
  cbn [fst _mem_store]. apply dict_set_values; [exact Hs |].
  pose proof (dict_get_values _ _ _ _ Hs Hget) as [H1 H2].
  unfold timely. destruct t, c; cbn; lia.
Qed.

Lemma try_update_timely d e k t c :
  Forall (timely (now e)) (Db.rows d) ->
  Forall (timely (now e)) (Db.rows (fst (try_update d e k t c))).
Proof.
  intros Hd. unfold try_update, Db.session_get, Db.session_commit.
  destruct (read_ok e); [| exact Hd].
  destruct (Db.find_row (Db.rows d) k) as [old |] eqn:Hrow; [| exact Hd].
  destruct (commit_ok e); cbn [fst Db.rows Db.asked]; [| exact Hd].
  assert (Hold : timely (now e) old).
  { apply find_some in Hrow as [Hin _]. rewrite Forall_forall in Hd. auto. }
  unfold Db.replace_row. rewrite Forall_map. rewrite Forall_forall in *.
  intros r Hr. destruct (Models.id r =? Models.id (Db.updated old e t c)); [| auto].
  destruct Hold as [H1 H2]. unfold timely, Db.updated. cbn.
  match goal with |- context [if ?b then _ else _] => destruct b end; lia.
Qed.

Lemma after_timely (w : World) (e : Env) (c : Call) :
  all_timely (now e) w -> all_timely (now e) (after w e c).
Proof.
  intros [Hd Hs].
  assert (Hnew : forall nid t co,
            timely (now e) (Models.mkNote nid t co (now e) (now e)))
    by (intros; unfold timely; cbn; lia).
  destruct c as [t c | k | k t c | k | p ps]; unfold after.
  - rewrite create_note_eq. unfold try_create, Db.session_commit.
    destruct (_should_use_fallback (svc w)).
    + split; [exact Hd |]. cbn. apply dict_set_values; [exact Hs | apply Hnew].
    + destruct (commit_ok e); cbn [bind fst svc db with_db Db.rows Db.asked].
      * split; [| exact Hs]. apply Forall_app. split; [exact Hd |].
        constructor; [apply Hnew | constructor].
      * split; [exact Hd |]. cbn. apply dict_set_values; [exact Hs | apply Hnew].
  - unfold get_note, Db.session_get.
    destruct (_should_use_fallback (svc w)); split; assumption.
  - rewrite update_note_eq.
    pose proof (try_update_timely (db w) e k t c Hd) as Hd'.
    destruct (_should_use_fallback (svc w));
      [split; [exact Hd | apply mem_update_timely; exact Hs] |].
    destruct (try_update (db w) e k t c) as [d [r | []]]; cbn [fst] in Hd';
      split; try assumption.
    apply mem_update_timely; exact Hs.
  - rewrite delete_note_eq. unfold try_delete, Db.session_get, Db.session_commit.
    assert (Hdel : forall s, _mem_store s = _mem_store (svc w) ->
              Forall (timely (now e)) (Dict.values (_mem_store (fst (mem_delete s k))))).
    { intros s Hst. cbn. rewrite Hst. apply dict_remove_values. exact Hs. }
    destruct (_should_use_fallback (svc w)); [split; [exact Hd | apply Hdel; reflexivity] |].
    destruct (read_ok e); [| split; [exact Hd | apply Hdel; reflexivity]].
    destruct (Db.find_row (Db.rows (db w)) k); [| split; assumption].
    destruct (commit_ok e); cbn [bind fst svc db with_db Db.rows Db.asked];
      [| split; [exact Hd | apply Hdel; reflexivity]].
    split; [| exact Hs]. unfold Db.delete_row.
    rewrite Forall_forall in *. intros r Hr. apply filter_In in Hr as [Hr _]. auto.
  - unfold list_notes, Db.query_count, Db.query_page.
    destruct (_should_use_fallback (svc w)); [split; assumption |].
    destruct (read_ok e); split; assumption.
Qed.

(** X12. With a clock that never goes back, no note is ever updated before
    it was created: if every note has [created_at <= updated_at <= t] and the
    calls of a run read the clock at instants that do not decrease from [t]
    on, every note of either backend after the run has [created_at <=
    updated_at], and no timestamp is later than the last reading. *)
Theorem timestamps_stay_ordered (t : Time) (w : World) (calls : list (Env * Call)) :
  all_timely t w ->
  clock_from t calls ->
  all_timely (last_clock t calls) (run w calls).
Proof.
  revert t w. induction calls as [| [e c] calls IH]; intros t w Hw Hclock; cbn;
    [exact Hw |].
  destruct Hclock as [Hle Hrest].
  apply IH; [| exact Hrest].
  apply after_timely. exact (all_timely_later _ _ _ Hw Hle).
Qed.

Lemma timestamps_stay_ordered_witness :
  (all_timely 0 fresh /\
   clock_from 0 [(up 1, Create "one" None); (down 3, Create "two" None);
                 (up 5, Update 1 (Some "dos"%string) None)]) /\
  all_timely
    (last_clock 0 [(up 1, Create "one" None); (down 3, Create "two" None);
                   (up 5, Update 1 (Some "dos"%string) None)])
    (run fresh [(up 1, Create "one" None); (down 3, Create "two" None);
                (up 5, Update 1 (Some "dos"%string) None)]).
Proof.
  assert (H0 : all_timely 0 fresh) by (split; constructor).
  assert (Hc : clock_from 0 [(up 1, Create "one" None); (down 3, Create "two" None);
                             (up 5, Update 1 (Some "dos"%string) None)])
    by (cbn; lia).
  split; [split; assumption |].
  exact (timestamps_stay_ordered 0 fresh _ H0 Hc).
Defined.

End BackendInvariants.

(** ** Pages *)

Section PageFacts.

Import Services Runs Worlds Walks.

Lemma listing_perm (w : World) : Permutation (listing w) (all_stored w).
Proof.
  unfold listing, all_stored. destruct (_should_use_fallback (svc w)).
  - apply Permutation_refl.
  - apply Permutation_sym. apply order_by_id_desc_perm.
Qed.

Lemma listing_length (w : World) :
  List.length (listing w) = List.length (all_stored w).
Proof. apply Permutation_length. apply listing_perm. Qed.

(** One page, on either backend: the cut of the listing. *)
Lemma list_notes_page (w : World) (e : Env) (p ps : Z) :
  _fallback_enabled (svc w) = true \/ read_ok e = true ->
  1 <= p -> 1 <= ps ->
  snd (list_notes w e p ps) =
  Ok (firstn (Z.to_nat ps) (skipn (Z.to_nat ((p - 1) * ps)) (listing w)),
      Z.of_nat (List.length (all_stored w))).
Proof.
  intros Hans Hp Hps. destruct (_fallback_enabled (svc w)) eqn:Hf.
  - rewrite (mem_list_by_insertion w e p ps Hf Hp Hps). cbn [snd].
    unfold listing, all_stored, _should_use_fallback. rewrite Hf. reflexivity.
  - destruct Hans as [Habs | Hr]; [discriminate |].
    rewrite (durable_list_by_desc_id w e p ps Hf Hr Hp Hps).
    unfold page_by_desc_id, listing, all_stored, _should_use_fallback. rewrite Hf.
    reflexivity.
Qed.

(** [list_notes] changes no note and not the flag. *)
Lemma list_notes_keeps (w : World) (e : Env) (p ps : Z) :
  svc (fst (list_notes w e p ps)) = svc w /\
  Db.rows (db (fst (list_notes w e p ps))) = Db.rows (db w).
Proof.
  unfold list_notes, Db.query_count, Db.query_page.
  destruct (_should_use_fallback (svc w)); [auto |].
  destruct (read_ok e); cbn; auto.
Qed.

Lemma sorted_skipn {A : Type} (R : A -> A -> Prop) (n : nat) (l : list A) :
  Sorted R l -> Sorted R (skipn n l).
Proof.
  revert l. induction n as [| n IH]; intros l Hs; [exact Hs |].
  destruct l as [| x l]; [exact Hs |]. cbn. apply IH.
  inversion Hs; assumption.
Qed.

Lemma sorted_firstn {A : Type} (R : A -> A -> Prop) (n : nat) (l : list A) :
  Sorted R l -> Sorted R (firstn n l).
Proof.
  revert l. induction n as [| n IH]; intros l Hs; [constructor |].
  destruct l as [| x l]; [constructor |]. cbn.
  inversion Hs as [| ? ? Hl Hhd]; subst. constructor; [apply IH; exact Hl |].
  destruct l as [| y l]; [rewrite firstn_nil; constructor |].
  destruct n; [constructor |].
  cbn. constructor. inversion Hhd; assumption.
Qed.

Lemma incl_firstn_skipn {A : Type} (a b : nat) (l : list A) :
  incl (firstn a (skipn b l)) l.
Proof.
  intros x Hx.
  rewrite <- (firstn_skipn b l). apply in_or_app. right.
  rewrite <- (firstn_skipn a (skipn b l)). apply in_or_app. left. exact Hx.
Qed.

(** X13. A page is a part of what is stored: when the backend answers,
    [list_notes] returns at most [page_size] notes, each of them a note of
    the active backend, together with the number of all its notes. *)
Theorem page_is_bounded_and_stored
    (w : World) (e : Env) (p ps : Z) :
  _fallback_enabled (svc w) = true \/ read_ok e = true ->
  1 <= p -> 1 <= ps ->
  exists items,
    snd (list_notes w e p ps) = Ok (items, Z.of_nat (List.length (all_stored w))) /\
    Z.of_nat (List.length items) <= ps /\
    incl items (all_stored w).
Proof.
  intros Hans Hp Hps. rewrite (list_notes_page w e p ps Hans Hp Hps).
  eexists. split; [reflexivity |]. split.
  - pose proof (firstn_le_length (Z.to_nat ps)
                  (skipn (Z.to_nat ((p - 1) * ps)) (listing w))). lia.
  - intros x Hx. apply incl_firstn_skipn in Hx.
    eapply Permutation_in; [apply listing_perm | exact Hx].
Qed.

Lemma page_is_bounded_and_stored_witness :
  ((_fallback_enabled (svc three_in_memory) = true \/ read_ok (down 4) = true) /\
   1 <= 2 /\ 1 <= 2) /\
  exists items,
    snd (list_notes three_in_memory (down 4) 2 2)
      = Ok (items, Z.of_nat (List.length (all_stored three_in_memory))) /\
    Z.of_nat (List.length items) <= 2 /\
    incl items (all_stored three_in_memory).
Proof.
  split; [split; [left; reflexivity | lia] |].
  apply (page_is_bounded_and_stored three_in_memory (down 4) 2 2);
    [left; reflexivity | lia | lia].
Defined.

(** X14. On the durable backend the notes of a page come by descending id. *)
Theorem durable_page_is_sorted
    (w : World) (e : Env) (p ps : Z) (items : list Models.Note) (total : Z) :
  _fallback_enabled (svc w) = false ->
  read_ok e = true ->
  1 <= p -> 1 <= ps ->
  snd (list_notes w e p ps) = Ok (items, total) ->
  Sorted id_ge items.
Proof.
  intros Hf Hr Hp Hps.
  rewrite (list_notes_page w e p ps (or_intror Hr) Hp Hps).
  intros [= <- _]. apply sorted_firstn. apply sorted_skipn.
  unfold listing, _should_use_fallback. rewrite Hf. apply order_by_id_desc_sorted.
Qed.

Lemma durable_page_is_sorted_witness :
  (_fallback_enabled
     (svc (run fresh [(up 1, Create "one" None); (up 2, Create "two" None);
                      (up 3, Create "three" None)])) = false /\
   read_ok (up 4) = true /\ 1 <= 1 /\ 1 <= 2 /\
   snd (list_notes
          (run fresh [(up 1, Create "one" None); (up 2, Create "two" None);
                      (up 3, Create "three" None)]) (up 4) 1 2)
     = Ok ([Models.mkNote 3 "three" "" 3 3; Models.mkNote 2 "two" "" 2 2], 3)) /\
  Sorted id_ge [Models.mkNote 3 "three" "" 3 3; Models.mkNote 2 "two" "" 2 2].
Proof.
  split; [repeat split; try reflexivity; lia |].
  apply (durable_page_is_sorted
           (run fresh [(up 1, Create "one" None); (up 2, Create "two" None);
                       (up 3, Create "three" None)]) (up 4) 1 2
           [Models.mkNote 3 "three" "" 3 3; Models.mkNote 2 "two" "" 2 2] 3);
    [reflexivity | reflexivity | lia | lia | reflexivity].
Defined.

Lemma firstn_plus {A : Type} (a b : nat) (l : list A) :
  firstn (a + b) l = (firstn a l ++ firstn b (skipn a l))%list.
Proof.
  revert l. induction a as [| a IH]; intros l; [reflexivity |].
  destruct l as [| x l]; cbn; [rewrite firstn_nil; reflexivity |].
  rewrite IH. reflexivity.
Qed.

Lemma listing_after_list (w : World) (e : Env) (p ps : Z) :
  listing (fst (list_notes w e p ps)) = listing w /\
  _fallback_enabled (svc (fst (list_notes w e p ps))) = _fallback_enabled (svc w).
Proof.
  destruct (list_notes_keeps w e p ps) as [Hs Hr].
  unfold listing, _should_use_fallback. rewrite Hs, Hr. auto.
Qed.

(** [n] successive pages from page [p] on are the next [n * page_size] notes
    of the listing. *)
Lemma walk_pages_cut (e : Env) (ps : Z) (n : nat) :
  1 <= ps ->
  forall (w : World) (p : Z),
    _fallback_enabled (svc w) = true \/ read_ok e = true ->
    1 <= p ->
    walk_pages w e ps p n =
    firstn (n * Z.to_nat ps) (skipn (Z.to_nat ((p - 1) * ps)) (listing w)).
Proof.
  intros Hps. induction n as [| n IH]; intros w p Hans Hp; [reflexivity |].
  cbn [walk_pages]. unfold page_items.
  rewrite (list_notes_page w e p ps Hans Hp Hps). cbn [snd].
  destruct (listing_after_list w e p ps) as [Hl Hf].
  rewrite IH; [| rewrite Hf; exact Hans | lia].
  rewrite Hl.
  replace (Z.to_nat ((p + 1 - 1) * ps))
    with (Z.to_nat ps + Z.to_nat ((p - 1) * ps))%nat by nia.
  rewrite <- skipn_skipn.
  change (S n * Z.to_nat ps)%nat with (Z.to_nat ps + n * Z.to_nat ps)%nat.
  rewrite firstn_plus. reflexivity.
Qed.

(** X15. Walking the pages visits every note once: when the backend answers,
    the pages 1 to [total_pages], asked one after the other with the same
    [page_size], put end to end are the listing of the active backend, which
    holds the stored notes, each once. *)
Theorem walking_the_pages_visits_every_note
    (w : World) (e : Env) (ps : Z) (m : Pagination.Meta) :
  _fallback_enabled (svc w) = true \/ read_ok e = true ->
  1 <= ps ->
  Pagination.pagination_meta (Z.of_nat (List.length (all_stored w))) 1 ps = Ok m ->
  walk_pages w e ps 1 (Z.to_nat (Pagination.total_pages m)) = listing w /\
  Permutation (listing w) (all_stored w).
Proof.
  intros Hans Hps Hm. split; [| apply listing_perm].
  rewrite (walk_pages_cut e ps _ Hps w 1 Hans ltac:(lia)).
  replace (Z.to_nat ((1 - 1) * ps)) with 0%nat by lia. cbn [skipn].
  apply firstn_all2. rewrite listing_length.
  rewrite pagination_meta_eq in Hm by lia. injection Hm as <-.
  cbn [Pagination.total_pages].
  set (t := Z.of_nat (List.length (all_stored w))) in *.
  destruct (ceil_div_is_ceil t ps ltac:(lia)) as (q & Hq & Hceil1 & Hceil2).
  unfold Pagination.ceil_div in Hq.
  destruct (Z.eqb_spec ps 0) as [E | _]; [lia |].
  injection Hq as Hq. rewrite Hq.
  assert (Hcover : t <= Z.max q 1 * ps) by nia.
  assert (Hnat : Z.of_nat (Z.to_nat (Z.max q 1) * Z.to_nat ps) = Z.max q 1 * ps).
  { rewrite Nat2Z.inj_mul, !Z2Nat.id by lia. reflexivity. }
  unfold t in Hcover. lia.
Qed.

Lemma walking_the_pages_visits_every_note_witness :
  ((_fallback_enabled (svc three_in_memory) = true \/ read_ok (down 4) = true) /\
   1 <= 2 /\
   Pagination.pagination_meta (Z.of_nat (List.length (all_stored three_in_memory))) 1 2
     = Ok (Pagination.mkMeta 3 2 1 2 1 None (Some 2))) /\
  (walk_pages three_in_memory (down 4) 2 1
     (Z.to_nat (Pagination.total_pages (Pagination.mkMeta 3 2 1 2 1 None (Some 2))))
     = listing three_in_memory /\
   Permutation (listing three_in_memory) (all_stored three_in_memory)).
Proof.
  split; [split; [left; reflexivity | split; [lia | reflexivity]] |].
  apply (walking_the_pages_visits_every_note three_in_memory (down 4) 2
           (Pagination.mkMeta 3 2 1 2 1 None (Some 2)));
    [left; reflexivity | lia | reflexivity].
Defined.

End PageFacts.

(** ** The handlers *)

Section HandlerFacts.

Import Services Routes Runs Worlds Walks Schemas.

Lemma on_service_eq {A : Type} (a : App) (op : World -> World * result A) :
  on_service a op = (fst (on_service a op), snd (op (world_of a))).
Proof.
  destruct (on_service_world a op) as [_ Hsnd]. rewrite <- Hsnd.
  destruct (on_service a op); reflexivity.
Qed.





(** The world a handler leaves. *)
Lemma post_world (a : App) (e : Env) (body : Body) (t : string) :
  body_get (body_title body) = Some t ->
  Str.strip t <> ""%string ->
  NotesList_post a e body =
  (fst (on_service a
          (fun w => create_note w e (Str.strip t) (body_get (body_content body)))),
   match snd (create_note (world_of a) e (Str.strip t) (body_get (body_content body))) with
   | Ok note => NoteJson 201 note
   | Raise ex => Uncaught ex
   end).
Proof.
  intros Hb Hne. unfold NotesList_post. rewrite Hb.
  destruct (String.eqb_spec (Str.strip t) "") as [E | _]; [contradiction |].
  rewrite on_service_eq.
  destruct (snd (create_note (world_of a) e (Str.strip t) (body_get (body_content body))));
    reflexivity.
Qed.





Lemma put_world (a : App) (e : Env) (body : Body) (k : Z) :
  body_empty body = false ->
  (forall t, body_title body = Some (Some t) -> Str.strip t <> ""%string) ->
  NoteDetail_put a e body k =
  (fst (on_service a
          (fun w => update_note w e k
                      (option_map Str.strip (body_get (body_title body)))
                      (body_get (body_content body)))),
   match snd (update_note (world_of a) e k
                (option_map Str.strip (body_get (body_title body)))
                (body_get (body_content body))) with
   | Ok None => Aborted 404 "Note not found"
   | Ok (Some updated) => NoteJson 200 updated
   | Raise ex => Uncaught ex
   end).
Proof.
  intros He Ht. unfold NoteDetail_put. rewrite He.
  assert (Hb : match body_title body with
               | Some (Some title) => String.eqb (Str.strip title) ""
               | _ => false
               end = false).
  { destruct (body_title body) as [[t |] |]; try reflexivity.
    apply String.eqb_neq. apply Ht. reflexivity. }
  rewrite Hb. rewrite on_service_eq.
  destruct (snd (update_note (world_of a) e k _ _)) as [[n |] | ex]; reflexivity.
Qed.

(** A [PUT] that is not answered 400 has a body and no blank title. *)
Lemma put_not_rejected
    (a : App) (e : Env) (body : Body) (k : Z) :
  (forall msg, snd (NoteDetail_put a e body k) <> Aborted 400 msg) ->
  body_empty body = false /\
  (forall t, body_title body = Some (Some t) -> Str.strip t <> ""%string).
Proof.
  intros Hnot. unfold NoteDetail_put in Hnot.
  destruct (body_empty body); [exfalso; eapply Hnot; reflexivity |].
  split; [reflexivity |]. intros t Hbt E. rewrite Hbt, E in Hnot.
  cbn in Hnot. eapply Hnot. reflexivity.
Qed.



(** X19. A title given to [PUT /notes/id] is stored trimmed: the note of a
    200 answer carries the trimmed title, which is not blank, and is the note
    now stored under the id. *)
Theorem put_stores_trimmed_title
    (a : App) (e : Env) (body : Body) (k : Z) (n' : Models.Note) :
  snd (NoteDetail_put a e body k) = NoteJson 200 n' ->
  (forall t, body_title body = Some (Some t) ->
             Models.title n' = Str.strip t /\ ~ Str.blank (Models.title n')) /\
  stored (world_of (fst (NoteDetail_put a e body k))) k = Some n'.
Proof.
  intros Hresp.
  destruct (put_not_rejected a e body k) as [He Ht].
  { intros msg H. rewrite H in Hresp. discriminate. }
  rewrite (put_world a e body k He Ht) in Hresp |- *. cbn [fst snd] in *.
  destruct (on_service_world a
    (fun w => update_note w e k
                (option_map Str.strip (body_get (body_title body)))
                (body_get (body_content body)))) as [Hfst _].
  rewrite Hfst.
  destruct (snd (update_note (world_of a) e k _ _)) as [[n |] | ex] eqn:Hr;
    try discriminate.
  injection Hresp as ->.
  destruct (update_note_some _ _ _ _ _ _ Hr) as (old & _ & _ & _ & Htitle & _ & Hst).
  split; [| exact Hst].
  intros t Hbt. rewrite Hbt in Htitle. cbn in Htitle.
  split; [exact Htitle |]. rewrite Htitle. apply strip_not_blank. apply Ht. exact Hbt.
Qed.

Lemma put_stores_trimmed_title_witness :
  snd (NoteDetail_put (fst (NotesList_post booted (up 1) hello)) (up 2)
         {| body_title := Some (Some " hi "%string); body_content := None |} 1)
    = NoteJson 200 (Models.mkNote 1 "hi" "" 1 2) /\
  ((forall t,
      body_title {| body_title := Some (Some " hi "%string); body_content := None |}
        = Some (Some t) ->
      Models.title (Models.mkNote 1 "hi" "" 1 2) = Str.strip t /\
      ~ Str.blank (Models.title (Models.mkNote 1 "hi" "" 1 2))) /\
   stored
     (world_of
        (fst (NoteDetail_put (fst (NotesList_post booted (up 1) hello)) (up 2)
                {| body_title := Some (Some " hi "%string); body_content := None |} 1)))
     1 = Some (Models.mkNote 1 "hi" "" 1 2)).
Proof.
  split; [reflexivity |].
  apply (put_stores_trimmed_title (fst (NotesList_post booted (up 1) hello)) (up 2)
           {| body_title := Some (Some " hi "%string); body_content := None |} 1
           (Models.mkNote 1 "hi" "" 1 2)).
  reflexivity.
Defined.

Lemma delete_note_clears (w : World) (e : Env) (k : Z) :
  stored (fst (delete_note w e k)) k = None.
Proof.
  destruct (delete_note_served w e k) as
    [(s & d & Hs & _ & ->) | (d & b & Hf & -> & Hnone & _)];
    unfold stored, stored_in, _should_use_fallback; cbn [fst svc db].
  - destruct (mem_delete_spec s k) as (H1 & H2 & _). rewrite H1, Hs. exact H2.
  - rewrite Hf. exact Hnone.
Qed.

Lemma get_world (a : App) (e : Env) (k : Z) :
  snd (NoteDetail_get a e k) =
  match snd (get_note (world_of a) e k) with
  | Ok None => Aborted 404 "Note not found"
  | Ok (Some note) => NoteJson 200 note
  | Raise ex => Uncaught ex
  end.
Proof.
  unfold NoteDetail_get. rewrite on_service_eq.
  destruct (snd (get_note (world_of a) e k)) as [[n |] | ex]; reflexivity.
Qed.

Lemma delete_world (a : App) (e : Env) (k : Z) :
  world_of (fst (NoteDetail_delete a e k)) = fst (delete_note (world_of a) e k).
Proof.
  destruct (on_service_world a (fun w => delete_note w e k)) as [Hfst _].
  unfold NoteDetail_delete. rewrite on_service_eq.
  destruct (snd (delete_note (world_of a) e k)) as [[|] | ex]; exact Hfst.
Qed.

(** X20. After [DELETE /notes/id], whatever it answered, [GET /notes/id]
    answers 404 whenever the backend answers the read. *)
Theorem delete_then_get_is_404 (a : App) (e e' : Env) (k : Z) :
  _fallback_enabled (svc (world_of (fst (NoteDetail_delete a e k)))) = true
  \/ read_ok e' = true ->
  snd (NoteDetail_get (fst (NoteDetail_delete a e k)) e' k)
    = Aborted 404 "Note not found".
Proof.
  intros Hans. rewrite get_world, get_note_answer by exact Hans.
  rewrite delete_world, delete_note_clears. reflexivity.
Qed.

Lemma delete_then_get_is_404_witness :
  (_fallback_enabled
     (svc (world_of
             (fst (NoteDetail_delete (fst (NotesList_post booted (up 1) hello))
                     (up 2) 1)))) = true
   \/ read_ok (up 3) = true) /\
  snd (NoteDetail_get
         (fst (NoteDetail_delete (fst (NotesList_post booted (up 1) hello)) (up 2) 1))
         (up 3) 1)
    = Aborted 404 "Note not found".
Proof.
  split; [right; reflexivity |].
  apply (delete_then_get_is_404 (fst (NotesList_post booted (up 1) hello))
           (up 2) (up 3) 1).
  right. reflexivity.
Defined.

(** X21. The note of a 201 answer of [POST /notes] is served by
    [GET /notes/id] under its id, with status 200, whenever the backend
    answers the read. *)
Theorem post_then_get_is_200
    (a : App) (e e' : Env) (body : Body) (n : Models.Note) :
  snd (NotesList_post a e body) = NoteJson 201 n ->
  _fallback_enabled (svc (world_of (fst (NotesList_post a e body)))) = true
  \/ read_ok e' = true ->
  snd (NoteDetail_get (fst (NotesList_post a e body)) e' (Models.id n)) = NoteJson 200 n.
Proof.
  intros Hresp Hans.
  destruct (body_get (body_title body)) as [t |] eqn:Hb;
    [| unfold NotesList_post in Hresp; rewrite Hb in Hresp; discriminate].
  destruct (String.eqb_spec (Str.strip t) "") as [E | N];
    [unfold NotesList_post in Hresp; rewrite Hb, E in Hresp; discriminate |].
  rewrite (post_world a e body t Hb N) in Hresp, Hans |- *. cbn [fst snd] in *.
  destruct (on_service_world a
    (fun w => create_note w e (Str.strip t) (body_get (body_content body))))
    as [Hfst _].
  destruct (create_note_stores (world_of a) e (Str.strip t)
              (body_get (body_content body))) as (m & Hr & _ & _ & Hst).
  rewrite Hr in Hresp. injection Hresp as <-.
  rewrite get_world, get_note_answer by exact Hans.
  rewrite Hfst, Hst. reflexivity.
Qed.

Lemma post_then_get_is_200_witness :
  (snd (NotesList_post booted (down 1) hello)
     = NoteJson 201 (Models.mkNote 1 "hello" "" 1 1) /\
   (_fallback_enabled (svc (world_of (fst (NotesList_post booted (down 1) hello)))) = true
    \/ read_ok (down 2) = true)) /\
  snd (NoteDetail_get (fst (NotesList_post booted (down 1) hello)) (down 2)
         (Models.id (Models.mkNote 1 "hello" "" 1 1)))
    = NoteJson 200 (Models.mkNote 1 "hello" "" 1 1).
Proof.
  split; [split; [reflexivity | left; reflexivity] |].
  apply (post_then_get_is_200 booted (down 1) (down 2) hello
           (Models.mkNote 1 "hello" "" 1 1)); [reflexivity | left; reflexivity].
Defined.

(** X22. The pagination of [GET /notes] agrees with the notes: when the
    backend answers, the answer counts all stored notes, holds the notes
    left from the offset up to [page_size] of them, and names a next page
    exactly when notes remain beyond this one. *)
Theorem next_page_iff_more_notes (a : App) (e : Env) (p ps : Z) :
  _fallback_enabled (svc (world_of a)) = true \/ read_ok e = true ->
  1 <= p -> 1 <= ps ->
  exists items meta,
    snd (NotesList_get a e p ps) = PageJson items meta /\
    Pagination.total meta = Z.of_nat (List.length (all_stored (world_of a))) /\
    Z.of_nat (List.length items)
      = Z.min ps (Z.max 0 (Pagination.total meta - (p - 1) * ps)) /\
    (Pagination.next_page meta = Some (p + 1) <-> p * ps < Pagination.total meta) /\
    (Pagination.next_page meta = None <-> Pagination.total meta <= p * ps).
Proof.
  intros Hans Hp Hps. unfold NotesList_get. rewrite on_service_eq.
  rewrite (list_notes_page (world_of a) e p ps Hans Hp Hps).
  set (t := Z.of_nat (List.length (all_stored (world_of a)))).
  rewrite pagination_meta_eq by lia.
  do 2 eexists. split; [reflexivity |].
  cbn [Pagination.total Pagination.next_page].
  split; [reflexivity |]. split.
  - rewrite length_firstn, length_skipn, listing_length. fold t.
    assert (0 <= (p - 1) * ps) by nia. unfold t. lia.
  - destruct (ceil_div_is_ceil t ps ltac:(lia)) as (q & Hq & Hc1 & Hc2).
    unfold Pagination.ceil_div in Hq.
    destruct (Z.eqb_spec ps 0) as [E | _]; [lia |].
    injection Hq as Hq. rewrite Hq.
    assert (Hiff : p < Z.max q 1 <-> p * ps < t) by (split; intros; nia).
    destruct (Z.ltb_spec p (Z.max q 1)) as [Hlt | Hge].
    + split; split; intros; try reflexivity; try discriminate; lia.
    + split; split; intros; try reflexivity; try discriminate; lia.
Qed.

Lemma next_page_iff_more_notes_witness :
  ((_fallback_enabled (svc (world_of (fst (NotesList_post booted (up 1) hello)))) = true
    \/ read_ok (up 2) = true) /\ 1 <= 1 /\ 1 <= 10) /\
  exists items meta,
    snd (NotesList_get (fst (NotesList_post booted (up 1) hello)) (up 2) 1 10)
      = PageJson items meta /\
    Pagination.total meta
      = Z.of_nat (List.length
                    (all_stored (world_of (fst (NotesList_post booted (up 1) hello))))) /\
    Z.of_nat (List.length items)
      = Z.min 10 (Z.max 0 (Pagination.total meta - (1 - 1) * 10)) /\
    (Pagination.next_page meta = Some (1 + 1) <-> 1 * 10 < Pagination.total meta) /\
    (Pagination.next_page meta = None <-> Pagination.total meta <= 1 * 10).
Proof.
  split; [split; [right; reflexivity | lia] |].
  apply (next_page_iff_more_notes (fst (NotesList_post booted (up 1) hello)) (up 2) 1 10);
    [right; reflexivity | lia | lia].
Defined.

Lemma schema_accepts (page page_size : option Z) (p ps : Z) :
  PaginationQuerySchema page page_size = Some (p, ps) ->
  1 <= p /\ 1 <= ps <= 100 /\
  p = match page with Some v => v | None => 1 end /\
  ps = match page_size with Some v => v | None => 10 end.
Proof.
  unfold PaginationQuerySchema, load_Integer, Range.
  destruct page as [v |], page_size as [v' |]; cbn;
    repeat match goal with
           | |- context [if ?b then _ else _] => destruct b eqn:?
           end;
    intros [= <- <-]; try discriminate; lia.
Qed.

(** X23. A listing query that passes the schema is served in range: the page
    is at least 1 and the page size between 1 and 100, each the value of the
    query or else the default 1 and 10, and when the backend answers the
    answer holds at most 100 notes; a query the schema refuses changes
    nothing. *)
Theorem list_endpoint_is_bounded
    (a : App) (e : Env) (page page_size : option Z) :
  _fallback_enabled (svc (world_of a)) = true \/ read_ok e = true ->
  match snd (list_endpoint a e page page_size) with
  | None => fst (list_endpoint a e page page_size) = a
  | Some r =>
      exists items meta,
        r = PageJson items meta /\
        Z.of_nat (List.length items) <= 100 /\
        Pagination.page meta = match page with Some v => v | None => 1 end /\
        1 <= Pagination.page meta
  end.
Proof.
  intros Hans. unfold list_endpoint.
  destruct (PaginationQuerySchema page page_size) as [[p ps] |] eqn:Hload;
    [| reflexivity].
  destruct (schema_accepts page page_size p ps Hload) as (Hp & Hps & Hpage & _).
  destruct (NotesList_get a e p ps) as [a' r] eqn:Hget. cbn [snd].
  assert (Hr : r = snd (NotesList_get a e p ps)) by (rewrite Hget; reflexivity).
  subst r. clear Hget. unfold NotesList_get. rewrite on_service_eq.
  rewrite (list_notes_page (world_of a) e p ps Hans Hp ltac:(lia)).
  rewrite pagination_meta_eq by lia.
  do 2 eexists. split; [reflexivity |]. cbn [Pagination.page].
  split; [| split; [exact Hpage | exact Hp]].
  pose proof (firstn_le_length (Z.to_nat ps)
                (skipn (Z.to_nat ((p - 1) * ps)) (listing (world_of a)))). lia.
Qed.

Lemma list_endpoint_is_bounded_witness :
  (_fallback_enabled (svc (world_of booted)) = true \/ read_ok (up 1) = true) /\
  match snd (list_endpoint booted (up 1) None (Some 500)) with
  | None => fst (list_endpoint booted (up 1) None (Some 500)) = booted
  | Some r =>
      exists items meta,
        r = PageJson items meta /\
        Z.of_nat (List.length items) <= 100 /\
        Pagination.page meta = 1 /\
        1 <= Pagination.page meta
  end.
Proof.
  split; [right; reflexivity |].
  apply (list_endpoint_is_bounded booted (up 1) None (Some 500)).
  right. reflexivity.
Defined.

End HandlerFacts.

(** ** Pagination links *)

Section LinkFacts.

Import Pagination.

(** X24. The links of the pagination never leave the range of pages: for all
    integers, [total_pages] is at least 1, a [next_page] is [page + 1] and at
    most [last_page], and a [previous_page] is [page - 1] and at least
    [first_page]. *)
Theorem pagination_links_stay_in_range (t p ps : Z) (m : Meta) :
  pagination_meta t p ps = Ok m ->
  1 <= total_pages m /\
  first_page m <= last_page m /\
  (forall n, next_page m = Some n -> n = p + 1 /\ n <= last_page m) /\
  (forall n, previous_page m = Some n -> n = p - 1 /\ first_page m <= n).
Proof.
  intros Hm.
  assert (Hshape : exists tp, 1 <= tp /\
            m = mkMeta t tp 1 tp p
                  (if 1 <? p then Some (p - 1) else None)
                  (if p <? tp then Some (p + 1) else None)).
  { destruct (Z.eq_dec ps 0) as [-> | Hps].
    - cbn in Hm. injection Hm as <-. exists 1. split; [lia | reflexivity].
    - rewrite pagination_meta_eq in Hm by exact Hps. injection Hm as <-.
      eexists. split; [| reflexivity]. lia. }
  destruct Hshape as (tp & Htp & ->). cbn.
  split; [exact Htp |]. split; [exact Htp |]. split; intros n.
  - destruct (Z.ltb_spec p tp); intros [= <-]. lia.
  - destruct (Z.ltb_spec 1 p); intros [= <-]. lia.
Qed.

Lemma pagination_links_stay_in_range_witness :
  pagination_meta 25 3 10 = Ok (mkMeta 25 3 1 3 3 (Some 2) None) /\
  (1 <= total_pages (mkMeta 25 3 1 3 3 (Some 2) None) /\
   first_page (mkMeta 25 3 1 3 3 (Some 2) None)
     <= last_page (mkMeta 25 3 1 3 3 (Some 2) None) /\
   (forall n, next_page (mkMeta 25 3 1 3 3 (Some 2) None) = Some n ->
              n = 3 + 1 /\ n <= last_page (mkMeta 25 3 1 3 3 (Some 2) None)) /\
   (forall n, previous_page (mkMeta 25 3 1 3 3 (Some 2) None) = Some n ->
              n = 3 - 1 /\ first_page (mkMeta 25 3 1 3 3 (Some 2) None) <= n)).
Proof.
  split; [reflexivity |].
  apply (pagination_links_stay_in_range 25 3 10 (mkMeta 25 3 1 3 3 (Some 2) None)).
  reflexivity.
Defined.

End LinkFacts.

(** ** The id of a note read *)

Section ReadFacts.

Import Services Runs Worlds Walks.

Lemma filed_after (w : World) (e : Env) (c : Call) :
  filed (_mem_store (svc w)) -> filed (_mem_store (svc (after w e c))).
Proof.
  intros H. destruct c as [t c | k | k t c | k | p ps]; unfold after.
  - rewrite create_note_eq.
    destruct (_should_use_fallback (svc w)); [apply mem_create_filed; exact H |].
    destruct (try_create_cases (db w) e t c) as [(d & r & ->) | (d & ->)];
      [exact H | apply (mem_create_filed (enable_fallback (svc w))); exact H].
  - unfold get_note. destruct (_should_use_fallback (svc w)); [exact H |].
    destruct (Db.session_get (db w) e k). exact H.
  - rewrite update_note_eq.
    destruct (_should_use_fallback (svc w)); [apply mem_update_filed; exact H |].
    destruct (try_update_cases (db w) e k t c) as [(d & r & ->) | (d & ->)];
      [exact H | apply (mem_update_filed (enable_fallback (svc w))); exact H].
  - rewrite delete_note_eq.
    destruct (_should_use_fallback (svc w)); [apply mem_delete_filed; exact H |].
    destruct (try_delete_cases (db w) e k) as [(d & r & ->) | (d & ->)];
      [exact H | apply (mem_delete_filed (enable_fallback (svc w))); exact H].
  - unfold list_notes. destruct (_should_use_fallback (svc w)); [exact H |].
    destruct (Db.query_count (db w) e) as [d1 [n | ex]]; [| exact H].
    destruct (Db.query_page d1 e ((p - 1) * ps) ps). exact H.
Qed.

Lemma filed_run (w : World) (calls : list (Env * Call)) :
  filed (_mem_store (svc w)) -> filed (_mem_store (svc (run w calls))).
Proof.
  revert w. induction calls as [| [e c] calls IH]; intros w H; cbn; [exact H |].
  apply IH. apply filed_after. exact H.
Qed.

(** X25. [get_note] returns the note asked for: on a service that has served
    any calls since its construction, over any table, a note returned for an
    id carries that id. *)
Theorem get_returns_the_id_asked
    (db0 : Db.t) (calls : list (Env * Call)) (e : Env) (k : Z) (n : Models.Note) :
  snd (get_note (run {| svc := __init__; db := db0 |} calls) e k) = Ok (Some n) ->
  Models.id n = k.
Proof.
  set (w := run {| svc := __init__; db := db0 |} calls).
  assert (Hfiled : filed (_mem_store (svc w))).
  { apply filed_run. split; constructor. }
  unfold get_note, Db.session_get.
  destruct (_should_use_fallback (svc w)); cbn [snd].
  - intros [= Hget]. destruct Hfiled as [_ Hid]. rewrite Forall_forall in Hid.
    exact (Hid _ (dict_get_in _ _ _ Hget)).
  - destruct (read_ok e); [| discriminate].
    intros [= Hrow]. exact (find_row_id _ _ _ Hrow).
Qed.

Lemma get_returns_the_id_asked_witness :
  snd (get_note
         (run {| svc := __init__; db := {| Db.rows := []; Db.requests := 0 |} |}
              [(down 1, Create "one" None); (up 2, Create "two" None)])
         (down 3) 2)
    = Ok (Some (Models.mkNote 2 "two" "" 2 2)) /\
  Models.id (Models.mkNote 2 "two" "" 2 2) = 2.
Proof.
  split; [reflexivity |].
  apply (get_returns_the_id_asked {| Db.rows := []; Db.requests := 0 |}
           [(down 1, Create "one" None); (up 2, Create "two" None)] (down 3) 2
           (Models.mkNote 2 "two" "" 2 2)).
  reflexivity.
Defined.

End ReadFacts.
